(** * mcp-sentry-ts: rendering primitives, renderers, context extraction

    A shallow embedding of the TypeScript sources
    - [src/formatters/baseFormatter.ts]   (module [BaseFormatter]),
    - [src/formatters/projectFormatter.ts] (module [ProjectFormatter]),
    - [src/formatters/issueFormatter.ts]  (module [IssueFormatter]),
    - [src/utils/errorHandler.ts], [src/api/sentryClient.ts] and the tool
      handlers of [src/index.ts]          (modules [ErrorHandler], [Server]),
    - the [extract_issue_context_data] handler of [src/index.ts]
      (module [Extract]),
    followed by the properties of the specification, stated against them. *)

From Stdlib Require Import ZArith List String Ascii Bool Lia.
From stdpp Require Import base option list sorting strings pretty gmap.

Local Open Scope string_scope.
Local Open Scope list_scope.

(* ===================================================================== *)
(** ** JavaScript values *)
(* ===================================================================== *)

(** The payloads are parsed JSON, probed dynamically ([event: any]).  A
    plain object is an ordered list of own properties.  [JUndefined] never
    occurs in parsed JSON but is what reading a missing property yields and
    what the extractor's records may hold.  Numbers are the integers (the
    counts and line numbers of the API).  Of the members a value inherits
    from its prototype, those of [Object.prototype] are part of the
    embedding ([inherited], [has]); those that arrays, strings and numbers
    find on their own prototypes are not. *)
Module Js.

#[local] Set Warnings "-register-all".
Inductive value : Type :=
| JUndefined
| JNull
| JBool (b : bool)
| JNum (n : Z)
| JStr (s : string)
| JArr (xs : list value)
| JObj (props : list (string * value)).

Abbreviation obj := (list (string * value)).

Definition is_undefined (v : value) : bool :=
  match v with JUndefined => true | _ => false end.

(** [x !== undefined] *)
Definition defined (v : value) : bool := negb (is_undefined v).

(** ToBoolean: what [if (x)], [x && ...] and [x || ...] test. *)
Definition truthy (v : value) : bool :=
  match v with
  | JUndefined | JNull => false
  | JBool b => b
  | JNum n => negb (n =? 0)%Z
  | JStr s => negb (String.eqb s "")
  | JArr _ | JObj _ => true
  end.

(** [String(x)], also the conversion of a template literal. *)
Fixpoint toStr (v : value) : string :=
  match v with
  | JUndefined => "undefined"
  | JNull => "null"
  | JBool true => "true"
  | JBool false => "false"
  | JNum n => pretty n
  | JStr s => s
  | JArr xs =>
      String.concat ","
        (map (fun x => match x with
                       | JUndefined | JNull => ""
                       | _ => toStr x
                       end) xs)
  | JObj _ => "[object Object]"
  end.

(** [o[k]] on the own properties of a plain object. *)
Fixpoint get (o : obj) (k : string) : value :=
  match o with
  | [] => JUndefined
  | (k', v) :: o' => if decide (k = k') then v else get o' k
  end.

(** [o[k] = v] for a name [k] that is no accessor of the prototype: an
    existing property keeps its place, a new one goes last.  (An engine
    lists integer-like names ahead of the others; the order of the names
    is not relied upon below.) *)
Fixpoint set (o : obj) (k : string) (v : value) : obj :=
  match o with
  | [] => [(k, v)]
  | (k', v') :: o' =>
      if decide (k = k') then (k, v) :: o' else (k', v') :: set o' k v
  end.

(** The index properties of an array or of the characters of a string. *)
Definition index_props (xs : list value) : obj :=
  imap (fun i x => (pretty i, x)) xs.

Definition chars (s : string) : list value :=
  map (fun c => JStr (String c "")) (list_ascii_of_string s).

(** [v[k]] for a value of unknown shape: own properties of an object,
    [length] and the indices of an array or a string. *)
Definition prop (v : value) (k : string) : value :=
  match v with
  | JObj o => get o k
  | JArr xs =>
      if decide (k = "length") then JNum (Z.of_nat (length xs))
      else get (index_props xs) k
  | JStr s =>
      if decide (k = "length") then JNum (Z.of_nat (String.length s))
      else get (index_props (chars s)) k
  | _ => JUndefined
  end.

(** [Object.keys(o)] *)
Definition keys (o : obj) : list string := map fst o.

(** The properties of [Object.prototype], which every object inherits:
    read under one of these names, an object without an own property of
    that name yields the inherited member (a function, or the prototype
    itself for [__proto__]), not [undefined]. *)
Definition Object_prototype : list string :=
  ["constructor"; "__defineGetter__"; "__defineSetter__"; "hasOwnProperty";
   "__lookupGetter__"; "__lookupSetter__"; "isPrototypeOf";
   "propertyIsEnumerable"; "toString"; "valueOf"; "__proto__";
   "toLocaleString"].

Definition inherited (k : string) : bool :=
  bool_decide (k ∈ Object_prototype).

(** Whether [v] has an own property [k]. *)
Definition own (v : value) (k : string) : bool :=
  match v with
  | JObj o => bool_decide (k ∈ keys o)
  | JArr xs =>
      bool_decide (k = "length") || bool_decide (k ∈ keys (index_props xs))
  | JStr s =>
      bool_decide (k = "length")
      || bool_decide (k ∈ keys (index_props (chars s)))
  | _ => false
  end.

(** [v[k] !== undefined] for a truthy [v]: an own property shadows the
    prototype, a name that is not own is looked up on [Object.prototype].
    This is the whole prototype chain of an object; an array, a string or
    a number has further members on its own prototype, which are left
    out. *)
Definition has (v : value) (k : string) : bool :=
  if own v k then defined (prop v k) else inherited k.

(** [String(v)] throws a [TypeError] on an object that has a property
    [toString] of its own (in parsed JSON it is never callable, and
    [valueOf] does not give a primitive either), and on an array with such
    an element. *)
Fixpoint String_throws (v : value) : bool :=
  match v with
  | JObj o => bool_decide ("toString" ∈ keys o)
  | JArr xs => existsb String_throws xs
  | _ => false
  end.

(** The numbers [toStr] prints as the engine does: the integers a double
    holds exactly (from 2^53 on the engine rounds, from 10^21 on it
    prints an exponent). *)
Fixpoint safe_numbers (v : value) : bool :=
  match v with
  | JNum n => (Z.abs n <=? 9007199254740991)%Z
  | JArr xs => forallb safe_numbers xs
  | _ => true
  end.

(** [String(v)] returns, and returns [toStr v]. *)
Definition stringifies (v : value) : bool :=
  negb (String_throws v) && safe_numbers v.

(** [Object.assign(target, source)] for a source of unknown shape: the own
    enumerable properties are copied in order (those of an object, the
    indices of an array or a string); other primitives contribute nothing.
    Properties are kept in insertion order; that an engine lists
    integer-like names first does not change what the object maps to. *)
Definition assign_props (target : obj) (props : obj) : obj :=
  foldl (fun t kv => set t kv.1 kv.2) target props.

Definition assign (target : obj) (source : value) : obj :=
  match source with
  | JObj o => assign_props target o
  | JArr xs => assign_props target (index_props xs)
  | JStr s => assign_props target (index_props (chars s))
  | _ => target
  end.

End Js.
Import Js.

(* ===================================================================== *)
(** ** The context extractor ([extract_issue_context_data], index.ts) *)
(* ===================================================================== *)

Module Extract.

(** The handler probes each event under caller-supplied names, so an event
    is the raw object here.  Strings are sequences of code units, one
    character each. *)

(** [Set<string>]: distinct members in insertion order. *)
Definition Set_add (x : string) (s : list string) : list string :=
  if decide (x ∈ s) then s else s ++ [x].

(** [Array.prototype.sort()] without comparator orders strings by code
    unit; for a total order the sorted permutation is unique, so the
    engine's algorithm does not matter. *)
Definition Array_sort (l : list string) : list string :=
  merge_sort String.le l.

Record ExtractionResult := {
  extracted_data : list obj;
  unique_values : gmap string (list string);
  total_events : nat;
  events_with_data : nat
}.

(** [extract_fields.forEach(field => uniqueValues[field] = new Set())]
    on [uniqueValues = {}].  Under the name [__proto__] the assignment runs
    the setter of [Object.prototype]: the set becomes the prototype of
    [uniqueValues] and no property is created, so [Object.keys] never
    lists that name. *)
Definition init_unique (extract_fields : list string)
  : gmap string (list string) :=
  foldl (fun uv field =>
           if decide (field = "__proto__") then uv else <[field := []]> uv)
        ∅ extract_fields.

(** Once a set is the prototype of [uniqueValues], the name [size] finds
    the getter of [Set.prototype], which has no setter: the module is
    strict code, so assigning [uniqueValues["size"]] throws, unless an
    earlier assignment has made [size] an own property.  [replaced] says
    whether [__proto__] has been assigned. *)
Fixpoint init_throws (replaced : bool) (extract_fields : list string) : bool :=
  match extract_fields with
  | [] => false
  | field :: rest =>
      if decide (field = "size") then replaced
      else init_throws (replaced || bool_decide (field = "__proto__")) rest
  end.

(** [{ event_id: event.id, timestamp: event.dateCreated }] *)
Definition new_eventData (event : obj) : obj :=
  [("event_id", get event "id"); ("timestamp", get event "dateCreated")].

(** [[event.contexts, event.extra, event.context, event]] *)
Definition sources (event : obj) : list value :=
  [get event "contexts"; get event "extra"; get event "context"; JObj event].

(** The loop [for (const source of sources) { if (...) { ...; break; } }]
    on the state (eventData, uniqueValues).  Both [source[field]] and
    [eventData[field]] see the members of [Object.prototype]: under such a
    name [eventData[field]] is never [undefined], so the body never runs
    and what it assigns is always an own property of the source.
    [uniqueValues[field]] exists for every name that gets here, so [alter]
    always finds the set. *)
Fixpoint scan_sources (srcs : list value) (field : string)
    (st : obj * gmap string (list string)) : obj * gmap string (list string) :=
  match srcs with
  | [] => st
  | source :: rest =>
      if truthy source && has source field && negb (has (JObj st.1) field)
      then (set st.1 field (prop source field),
            alter (Set_add (toStr (prop source field))) field st.2)
      else scan_sources rest field st
  end.

(** The body of [events.forEach]: returns the finished record, whether it
    has data, and the updated sets. *)
Definition process_event (extract_fields : list string) (event : obj)
    (uv : gmap string (list string)) : obj * bool * gmap string (list string) :=
  let st := foldl (fun st field => scan_sources (sources event) field st)
                  (new_eventData event, uv) extract_fields in
  let hasData :=
    existsb (fun field => has (JObj st.1) field) extract_fields in
  (st.1, hasData, st.2).

Definition step (extract_fields : list string)
    (acc : list obj * gmap string (list string)) (event : obj)
  : list obj * gmap string (list string) :=
  let '(eventData, hasData, uv) := process_event extract_fields event acc.2 in
  (if hasData then acc.1 ++ [eventData] else acc.1, uv).

(** The result object, as the handler builds it when no statement of
    lines 369-424 throws ([failure] below says when one does). *)
Definition extract (events : list obj) (extract_fields : list string)
  : ExtractionResult :=
  let acc := foldl (step extract_fields) ([], init_unique extract_fields)
                   events in
  {| extracted_data := acc.1;
     unique_values := Array_sort <$> acc.2;
     total_events := length events;
     events_with_data := length acc.1 |}.

(** The record the handler builds for one event (pushed to
    [extracted_data] when it has data). *)
Definition event_record (extract_fields : list string) (event : obj) : obj :=
  (process_event extract_fields event (init_unique extract_fields)).1.1.

(** *** The specification's vocabulary *)

(** "The first of contexts, extra, context, event-root that defines a
    non-undefined value for the field": the resolution rule in the words of
    the specification, [JUndefined] when no source defines the field. *)
Fixpoint first_defined_in (srcs : list value) (field : string) : value :=
  match srcs with
  | [] => JUndefined
  | source :: rest =>
      if truthy source && defined (prop source field)
      then prop source field
      else first_defined_in rest field
  end.

Definition spec_resolve (event : obj) (field : string) : value :=
  first_defined_in (sources event) field.

(** The value the lookup loop assigns to [field] on [event]: nothing when
    the record was created with a defined value under that name, and
    nothing under a name of [Object.prototype]. *)
Definition assigned (event : obj) (field : string) : value :=
  if defined (get (new_eventData event) field) || inherited field
  then JUndefined
  else spec_resolve event field.

(** The strings handed to [uniqueValues[field].add] over all events, in
    event order. *)
Definition assigned_strings (events : list obj) (field : string)
  : list string :=
  toStr <$> List.filter defined ((fun e => assigned e field) <$> events).

(** [hasData] of an event. *)
Definition has_data (extract_fields : list string) (event : obj) : bool :=
  existsb (fun field => has (JObj (event_record extract_fields event)) field)
          extract_fields.



(** *** The runs the embedding covers *)

(** The truthy ones of [contexts], [extra] and [context] are objects, as
    the API sends them.  (An array, a string or a number in their place
    would answer to the names of its own prototype as well.) *)
Definition plain_sources (event : obj) : bool :=
  forallb (fun source =>
             negb (truthy source)
             || match source with JObj _ => true | _ => false end)
          (sources event).

(** [String(source[field])] throws on some value picked up. *)
Definition conversion_throws (events : list obj)
    (extract_fields : list string) : bool :=
  existsb (fun event =>
             existsb (fun field => String_throws (assigned event field))
                     extract_fields)
          events.

(** The [TypeError] that ends the handler's [try] block early, if any,
    with V8's message. *)
Definition failure (events : list obj) (extract_fields : list string)
  : option string :=
  if init_throws false extract_fields
  then Some "Cannot set property size of #<Set> which has only a getter"
  else if conversion_throws events extract_fields
       then Some "Cannot convert object to primitive value"
       else None.

(** A run that [extract] describes in full: initialisation does not throw,
    the sources are objects, and [String] converts every value picked up
    as [toStr] does. *)
Definition regular (events : list obj) (extract_fields : list string)
  : bool :=
  negb (init_throws false extract_fields)
  && forallb (fun event =>
                plain_sources event
                && forallb (fun field => stringifies (assigned event field))
                           extract_fields)
             events.

(** Sample events. *)
Definition ev_room_contexts : obj :=
  [("id", JStr "e1"); ("contexts", JObj [("roomId", JStr "42")])].
Definition ev_room_extra : obj :=
  [("id", JStr "e2"); ("extra", JObj [("roomId", JStr "42")])].
Definition ev_bare : obj := [("id", JStr "e1")].
Definition ev_shadowed_id : obj :=
  [("id", JStr "e1"); ("contexts", JObj [("event_id", JStr "ctx")])].

End Extract.

(* ===================================================================== *)
(** ** Rendering primitives ([formatters/baseFormatter.ts]) *)
(* ===================================================================== *)

Module BaseFormatter.

Inductive FormatType := markdown | plain.
Inductive ViewType := summary | detailed.

Record FormatOptions := { format : FormatType; view : ViewType }.

(** The line feed of the template literals. *)
Definition nl : string := String "010" "".

Definition isMarkdown (o : FormatOptions) : bool :=
  match format o with markdown => true | plain => false end.

Definition isDetailed (o : FormatOptions) : bool :=
  match view o with detailed => true | summary => false end.

(** [s.repeat(n)] *)
Fixpoint repeat_string (s : string) (n : nat) : string :=
  match n with
  | O => ""
  | S n' => s +:+ repeat_string s n'
  end.

(** [xs.join(sep)] on strings. *)
Definition join (sep : string) (xs : list string) : string :=
  String.concat sep xs.

(** Concatenation of the strings appended by a loop. *)
Definition concat_all (xs : list string) : string :=
  foldr String.app "" xs.

Definition createHeader (o : FormatOptions) (title : string) (level : nat)
  : string :=
  if isMarkdown o
  then repeat_string "#" level +:+ " " +:+ title +:+ nl +:+ nl
  else title +:+ nl +:+ nl.

Definition createTable (o : FormatOptions) (headers : list string)
    (rows : list (list string)) : string :=
  if isMarkdown o
  then
    let table := "| " +:+ join " | " headers +:+ " |" +:+ nl in
    let table :=
      table +:+ "|" +:+ join "|" (map (fun _ => "----") headers) +:+ "|" +:+ nl in
    let table :=
      foldl (fun table row => table +:+ "| " +:+ join " | " row +:+ " |" +:+ nl)
            table rows in
    table +:+ nl
  else
    let result :=
      foldl (fun result row => result +:+ join " | " row +:+ nl) "" rows in
    result +:+ nl.

Definition createList (o : FormatOptions) (items : list string)
    (ordered : bool) : string :=
  if isMarkdown o
  then
    join nl (imap (fun index item =>
                     if ordered then pretty (index + 1)%nat +:+ ". " +:+ item
                     else "- " +:+ item) items) +:+ nl +:+ nl
  else
    join nl (imap (fun index item =>
                     if ordered then pretty (index + 1)%nat +:+ ". " +:+ item
                     else "- " +:+ item) items) +:+ nl +:+ nl.

Definition createCodeBlock (o : FormatOptions) (code language : string)
  : string :=
  if isMarkdown o
  then "```" +:+ language +:+ nl +:+ code +:+ nl +:+ "```" +:+ nl +:+ nl
  else code +:+ nl +:+ nl.

Definition createLink (o : FormatOptions) (text url : string) : string :=
  if isMarkdown o then "[" +:+ text +:+ "](" +:+ url +:+ ")"
  else text +:+ ": " +:+ url.

Definition createBold (o : FormatOptions) (text : string) : string :=
  if isMarkdown o then "**" +:+ text +:+ "**" else text.

Definition createSeparator (o : FormatOptions) : string :=
  if isMarkdown o then nl +:+ "---" +:+ nl +:+ nl
  else nl +:+ repeat_string "-" 50 +:+ nl +:+ nl.

(** *** Which primitives a renderer invokes

    A renderer is run in a writer monad that logs every call of a
    primitive, so that "this path builds no table" can be stated. *)

Inductive Prim :=
| PHeader | PTable | PList | PCodeBlock | PLink | PBold | PSeparator.

#[global] Instance Prim_eq_dec : EqDecision Prim.
Proof. solve_decision. Defined.

Definition Render (A : Type) : Type := A * list Prim.

Definition ret {A} (a : A) : Render A := (a, []).

Definition bind {A B} (m : Render A) (k : A -> Render B) : Render B :=
  ((k m.1).1, m.2 ++ (k m.1).2).

Definition output {A} (m : Render A) : A := m.1.
Definition calls {A} (m : Render A) : list Prim := m.2.

Fixpoint mapM {A B} (f : A -> Render B) (xs : list A) : Render (list B) :=
  match xs with
  | [] => ret []
  | x :: xs' =>
      bind (f x) (fun y => bind (mapM f xs') (fun ys => ret (y :: ys)))
  end.

(** A [for] loop appending to [output]. *)
Fixpoint forM {A} (f : nat -> A -> Render string) (i : nat) (xs : list A)
    (out : string) : Render string :=
  match xs with
  | [] => ret out
  | x :: xs' => bind (f i x) (fun s => forM f (S i) xs' (out +:+ s))
  end.

(** [this.createX(...)]: the primitive, logged. *)
Module this.
Definition createHeader o title level : Render string :=
  (createHeader o title level, [PHeader]).
Definition createTable o headers rows : Render string :=
  (createTable o headers rows, [PTable]).
Definition createList o items ordered : Render string :=
  (createList o items ordered, [PList]).
Definition createCodeBlock o code language : Render string :=
  (createCodeBlock o code language, [PCodeBlock]).
Definition createLink o text url : Render string :=
  (createLink o text url, [PLink]).
Definition createBold o text : Render string :=
  (createBold o text, [PBold]).
Definition createSeparator o : Render string :=
  (createSeparator o, [PSeparator]).
End this.

(** A path "invokes no table/list building". *)
Definition builds_no_table_or_list {A} (m : Render A) : Prop :=
  (PTable ∉ calls m) /\ (PList ∉ calls m).

(** [`${x}`] and [x || d] on an optional string ([None] is [undefined]);
    [join] turns [undefined] into the empty string. *)
Definition tpl (x : option string) : string := default "undefined" x.

Definition or_opt (x y : option string) : option string :=
  match x with
  | Some s => if String.eqb s "" then y else x
  | None => y
  end.

Definition or_str (x : option string) (d : string) : string :=
  match x with
  | Some s => if String.eqb s "" then d else s
  | None => d
  end.

Definition cell (x : option string) : string := default "" x.

(** What the plain-text table is specified to be: the header row first,
    then the data rows, cells joined by pipes, no separator row. *)
Definition spec_plain_table (headers : list string)
    (rows : list (list string)) : string :=
  concat_all (map (fun row => join " | " row +:+ nl) (headers :: rows)) +:+ nl.

End BaseFormatter.
Import BaseFormatter.

Declare Scope render_scope.
Delimit Scope render_scope with render.
Notation "'do' x <- m ;; k" := (bind m (fun x => k))
  (at level 10, x name, m at level 99, k at level 200) : render_scope.
Local Open Scope render_scope.

(* ===================================================================== *)
(** ** Project renderer ([formatters/projectFormatter.ts]) *)
(* ===================================================================== *)

Module ProjectFormatter.

(** Modelled from the spec: the type [SentryProject] of [types.ts], which
    is not among the sources; the fields are those of the data model that
    the renderer reads. *)
Record Team := { team_name : string }.

Record SentryProject := {
  id : string;
  name : string;
  slug : string;
  platform : option string;
  teams : list Team;
  environments : option (list string);
  features : option (list string)
}.

(** [xs?.join(", ") || "None"] *)
Definition joined_or_None (xs : option (list string)) : string :=
  or_str (join ", " <$> xs) "None".

Definition formatDetailed (o : FormatOptions) (projects : list SentryProject)
  : Render string :=
  do output <- this.createHeader o "Sentry Projects" 1 ;;
  do output <-
    (if isMarkdown o
     then
       let headers := ["ID"; "Name"; "Slug"; "Platform"; "Teams";
                       "Environments"; "Features"] in
       let rows :=
         map (fun project =>
                [id project; name project; slug project;
                 or_str (platform project) "N/A";
                 join ", " (map team_name (teams project));
                 joined_or_None (environments project);
                 joined_or_None (features project)]) projects in
       do table <- this.createTable o headers rows ;;
       ret (output +:+ table)
     else
       ret (foldl (fun output project =>
                     output
                     +:+ "ID: " +:+ id project +:+ nl
                     +:+ "Name: " +:+ name project +:+ nl
                     +:+ "Slug: " +:+ slug project +:+ nl
                     +:+ "Platform: " +:+ or_str (platform project) "N/A" +:+ nl
                     +:+ "Teams: "
                     +:+ join ", " (map team_name (teams project)) +:+ nl
                     +:+ "Environments: "
                     +:+ joined_or_None (environments project) +:+ nl
                     +:+ "Features: "
                     +:+ joined_or_None (features project) +:+ nl +:+ nl)
                  output projects)) ;;
  do summary <- this.createHeader o "Summary" 2 ;;
  ret (output +:+ summary
       +:+ "Total Projects: " +:+ pretty (length projects) +:+ nl).

Definition formatSummary (o : FormatOptions) (projects : list SentryProject)
  : Render string :=
  do output <- this.createHeader o "Sentry Projects" 1 ;;
  do items <- mapM (fun project =>
                   do bold <- this.createBold o (name project) ;;
                   ret (bold +:+ " (" +:+ slug project +:+ "): ID "
                        +:+ id project)) projects ;;
  do list <- this.createList o items false ;;
  ret (output +:+ list +:+ "Total Projects: " +:+ pretty (length projects)).

Definition formatData (o : FormatOptions) (projects : list SentryProject)
  : Render string :=
  if isDetailed o then formatDetailed o projects
  else formatSummary o projects.

(** The project of the specification's scenario. *)
Definition demo_project : SentryProject :=
  {| id := "1"; name := "Demo"; slug := "demo"; platform := None;
     teams := [{| team_name := "core" |}];
     environments := None; features := None |}.

End ProjectFormatter.

(* ===================================================================== *)
(** ** Issue and event renderer ([formatters/issueFormatter.ts]) *)
(* ===================================================================== *)

Module IssueFormatter.

(** Modelled from the spec: the type [SentryProjectIssue] of [types.ts],
    which is not among the sources, and the shape of an event, which the
    renderer takes as [any]; the fields are those of the data model that
    the renderer reads.  Optional fields are [option]s ([None] is
    [undefined]); the free-form maps and the user block stay untyped
    objects. *)

Module Issue.
Record t := {
  id : string;
  shortId : string;
  title : string;
  status : string;
  level : string;
  firstSeen : string;
  lastSeen : string;
  count : string;
  userCount : Z;
  culprit : string;
  permalink : string;
  (** [issue.stats["24h"]], pairs of (unix seconds, count) *)
  stats24h : option (list (Z * Z))
}.
End Issue.

Module Tag.
Record t := { key : string; value : string }.
End Tag.

Module Frame.
Record t := {
  (** the identity of the frame object, what [===] compares *)
  oid : nat;
  filename : option string;
  (** [None] is [null] *)
  lineNo : option Z;
  function : option string;
  inApp : bool;
  (** source lines around the frame, (line number, text); none when the
      property is missing *)
  context : list (Z * string);
  vars : option obj
}.
End Frame.

Module Entry.
Record t := {
  type : string;
  (** [entry.data.frames], [None] when [data] or [frames] is missing *)
  frames : option (list Frame.t)
}.
End Entry.

Module Event.
Record t := {
  eventID : option string;
  id : option string;
  title : option string;
  (** [event.metadata?.title] *)
  metadata_title : option string;
  platform : option string;
  dateCreated : option string;
  location : option string;
  (** [event["event.type"]] *)
  event_type : option string;
  type : option string;
  culprit : option string;
  tags : option (list Tag.t);
  user : option obj;
  context : option obj;
  contexts : option obj;
  extra : option obj;
  entries : option (list Entry.t)
}.
End Event.

(** [arr.slice(-n)] *)
Definition slice_last {A} (n : nat) (xs : list A) : list A :=
  drop (length xs - n) xs.

(** [`${bold(label)}: ${text}`] *)
Definition labelled (o : FormatOptions) (label text : string)
  : Render string :=
  do bold <- this.createBold o label ;;
  ret (bold +:+ ": " +:+ text).

Section Runtime.

(** Built-ins of the runtime: [new Date(ms).toISOString()],
    [JSON.stringify(x, null, 2)] and [s.trim()]. *)
Variable toISOString : Z -> string.
Variable JSON_stringify : obj -> string.
Variable trim : string -> string.

(** *** Issue lists *)

(** The "24-Hour Event Distribution" block of one issue. *)
Definition formatStats24h (o : FormatOptions) (heading : nat)
    (stats : option (list (Z * Z))) : Render string :=
  match stats with
  | Some ((_ :: _) as buckets) =>
      do header <- this.createHeader o "24-Hour Event Distribution" heading ;;
      if isMarkdown o
      then
        let headers := ["Timestamp"; "Count"] in
        let rows :=
          map (fun b => [toISOString (b.1 * 1000); pretty b.2]) buckets in
        do table <- this.createTable o headers rows ;;
        ret (header +:+ table)
      else
        ret (foldl (fun output b =>
                      output +:+ toISOString (b.1 * 1000) +:+ ": "
                      +:+ pretty b.2 +:+ nl)
                   header buckets +:+ nl)
  | _ => ret ""
  end.

Definition formatDetailedIssueList (o : FormatOptions) (issues : list Issue.t)
    (projectSlug : string) : Render string :=
  do output <- this.createHeader o ("Issues for Project: " +:+ projectSlug) 1 ;;
  do output <-
    (if isMarkdown o
     then
       let headers := ["ID"; "Short ID"; "Title"; "Status"; "Level";
                       "First Seen"; "Last Seen"; "Events"; "Users"] in
       let rows :=
         map (fun issue =>
                [Issue.id issue; Issue.shortId issue; Issue.title issue;
                 Issue.status issue; Issue.level issue; Issue.firstSeen issue;
                 Issue.lastSeen issue; Issue.count issue;
                 pretty (Issue.userCount issue)]) issues in
       do table <- this.createTable o headers rows ;;
       ret (output +:+ table)
     else ret output) ;;
  do details <- this.createHeader o "Issue Details" 2 ;;
  do output <-
    forM (fun i issue =>
            do header <- this.createHeader o
                 ("Issue " +:+ pretty (i + 1)%nat +:+ ": "
                  +:+ Issue.title issue) 3 ;;
            do d1 <- labelled o "ID" (Issue.id issue) ;;
            do d2 <- labelled o "Short ID" (Issue.shortId issue) ;;
            do d3 <- labelled o "Status" (Issue.status issue) ;;
            do d4 <- labelled o "Level" (Issue.level issue) ;;
            do d5 <- labelled o "First Seen" (Issue.firstSeen issue) ;;
            do d6 <- labelled o "Last Seen" (Issue.lastSeen issue) ;;
            do d7 <- labelled o "Event Count" (Issue.count issue) ;;
            do d8 <- labelled o "User Count" (pretty (Issue.userCount issue)) ;;
            do d9 <- labelled o "Culprit" (Issue.culprit issue) ;;
            do bold <- this.createBold o "Permalink" ;;
            do link <- this.createLink o (Issue.permalink issue)
                         (Issue.permalink issue) ;;
            do list <- this.createList o
                 [d1; d2; d3; d4; d5; d6; d7; d8; d9; bold +:+ ": " +:+ link]
                 false ;;
            do stats <- formatStats24h o 4 (Issue.stats24h issue) ;;
            do separator <- this.createSeparator o ;;
            ret (header +:+ list +:+ stats +:+ separator))
         0 issues (output +:+ details) ;;
  do summary <- this.createHeader o "Summary" 2 ;;
  ret (output +:+ summary
       +:+ "Total Issues: " +:+ pretty (length issues) +:+ nl).

Definition formatSummaryIssueList (o : FormatOptions) (issues : list Issue.t)
    (projectSlug : string) : Render string :=
  do output <- this.createHeader o ("Issues for Project: " +:+ projectSlug) 1 ;;
  do items <-
    mapM (fun issue =>
            do bold <- this.createBold o (Issue.title issue) ;;
            let mainInfo := bold +:+ " (" +:+ Issue.shortId issue +:+ ")" in
            let details :=
              "Status: " +:+ Issue.status issue +:+ ", Level: "
              +:+ Issue.level issue +:+ ", Events: " +:+ Issue.count issue in
            let timing :=
              "First seen: " +:+ Issue.firstSeen issue +:+ ", Last seen: "
              +:+ Issue.lastSeen issue in
            ret (mainInfo +:+ nl +:+ "  - " +:+ details +:+ nl +:+ "  - "
                 +:+ timing)) issues ;;
  do list <- this.createList o items false ;;
  ret (output +:+ list +:+ "Total Issues: " +:+ pretty (length issues)).

Definition formatIssueList (o : FormatOptions) (issues : list Issue.t)
    (projectSlug : string) : Render string :=
  if (length issues =? 0)%nat
  then
    do header <- this.createHeader o
                   ("Issues for Project: " +:+ projectSlug) 1 ;;
    ret (header +:+ "No issues found for this project." +:+ nl)
  else if isDetailed o then formatDetailedIssueList o issues projectSlug
  else formatSummaryIssueList o issues projectSlug.

(** *** Event lists *)

(** [if (user.k) userDetails.push(`${bold(label)}: ${user.k}`)] *)
Definition pushUserDetail (o : FormatOptions) (user : obj)
    (label k : string) (userDetails : list string) : Render (list string) :=
  if truthy (get user k)
  then do d <- labelled o label (toStr (get user k)) ;;
       ret (userDetails ++ [d])
  else ret userDetails.

Definition userDetails (o : FormatOptions) (user : obj)
  : Render (list string) :=
  do ds <- pushUserDetail o user "ID" "id" [] ;;
  do ds <- pushUserDetail o user "Email" "email" ds ;;
  do ds <- pushUserDetail o user "Username" "username" ds ;;
  pushUserDetail o user "IP Address" "ip_address" ds.

Definition eventRef (event : Event.t) : option string :=
  or_opt (Event.eventID event) (Event.id event).

Definition formatDetailedEventList (o : FormatOptions) (events : list Event.t)
    (issueTitle : string) : Render string :=
  do output <- this.createHeader o ("Events for " +:+ issueTitle) 1 ;;
  do output <-
    (if isMarkdown o
     then
       let headers := ["Event ID"; "Title"; "Platform"; "Date Created";
                       "Location"] in
       let rows :=
         map (fun event =>
                [cell (eventRef event);
                 or_str (Event.title event) "N/A";
                 or_str (Event.platform event) "N/A";
                 or_str (Event.dateCreated event) "N/A";
                 or_str (Event.location event) "N/A"]) events in
       do table <- this.createTable o headers rows ;;
       ret (output +:+ table)
     else ret output) ;;
  do details <- this.createHeader o "Event Details" 2 ;;
  do output <-
    forM (fun i event =>
            do header <- this.createHeader o
                 ("Event " +:+ pretty (i + 1)%nat +:+ ": "
                  +:+ tpl (or_opt (Event.title event) (eventRef event))) 3 ;;
            do d1 <- labelled o "Event ID" (tpl (eventRef event)) ;;
            do d2 <- labelled o "Date Created" (tpl (Event.dateCreated event)) ;;
            do d3 <- labelled o "Platform" (or_str (Event.platform event) "N/A") ;;
            do d4 <- labelled o "Type"
                 (or_str (or_opt (Event.event_type event) (Event.type event))
                         "N/A") ;;
            do d5 <- labelled o "Location" (or_str (Event.location event) "N/A") ;;
            do d6 <- labelled o "Culprit" (or_str (Event.culprit event) "N/A") ;;
            do list <- this.createList o [d1; d2; d3; d4; d5; d6] false ;;
            do tags <-
              (match Event.tags event with
               | Some ((_ :: _) as tags) =>
                   do header <- this.createHeader o "Tags" 4 ;;
                   if isMarkdown o
                   then
                     let headers := ["Key"; "Value"] in
                     let rows :=
                       map (fun tag => [Tag.key tag; Tag.value tag]) tags in
                     do table <- this.createTable o headers rows ;;
                     ret (header +:+ table)
                   else
                     ret (foldl (fun output tag =>
                                   output +:+ Tag.key tag +:+ ": "
                                   +:+ Tag.value tag +:+ nl)
                                header tags +:+ nl)
               | _ => ret ""
               end) ;;
            do user <-
              (match Event.user event with
               | Some user =>
                   do header <- this.createHeader o "User Information" 4 ;;
                   do ds <- userDetails o user ;;
                   if (0 <? length ds)%nat
                   then do list <- this.createList o ds false ;;
                        ret (header +:+ list)
                   else ret header
               | None => ret ""
               end) ;;
            do separator <- this.createSeparator o ;;
            ret (header +:+ list +:+ tags +:+ user +:+ separator))
         0 events (output +:+ details) ;;
  do summary <- this.createHeader o "Summary" 2 ;;
  ret (output +:+ summary
       +:+ "Total Events: " +:+ pretty (length events) +:+ nl).

(** [event.tags?.find(tag => tag.key === k)?.value || "unknown"] *)
Definition tagValueOrUnknown (event : Event.t) (k : string) : string :=
  or_str
    (tags ← Event.tags event;
     Tag.value <$> List.find (fun tag => String.eqb (Tag.key tag) k) tags)
    "unknown".

Definition formatSummaryEventList (o : FormatOptions) (events : list Event.t)
    (issueTitle : string) : Render string :=
  do output <- this.createHeader o ("Events for " +:+ issueTitle) 1 ;;
  do items <-
    mapM (fun event =>
            let level := tagValueOrUnknown event "level" in
            let environment := tagValueOrUnknown event "environment" in
            do mainInfo <- labelled o "Event ID" (tpl (eventRef event)) ;;
            let details := "Title: " +:+ or_str (Event.title event) "N/A" in
            let context :=
              "Level: " +:+ level +:+ ", Environment: " +:+ environment
              +:+ ", Platform: " +:+ or_str (Event.platform event) "N/A" in
            let timing := "Date: " +:+ tpl (Event.dateCreated event) in
            ret (mainInfo +:+ nl +:+ "  - " +:+ details +:+ nl +:+ "  - "
                 +:+ context +:+ nl +:+ "  - " +:+ timing)) events ;;
  do list <- this.createList o items false ;;
  ret (output +:+ list +:+ "Total Events: " +:+ pretty (length events)).

Definition formatEventList (o : FormatOptions) (events : list Event.t)
    (issueTitle : string) : Render string :=
  if (length events =? 0)%nat
  then
    do header <- this.createHeader o ("Events for " +:+ issueTitle) 1 ;;
    ret (header +:+ "No events found for this issue." +:+ nl)
  else if isDetailed o then formatDetailedEventList o events issueTitle
  else formatSummaryEventList o events issueTitle.

(** *** Single event ([formatSingleEvent]) *)

Definition importantTags : list string :=
  ["environment"; "level"; "release"; "server_name"; "runtime"].

(** [importantTags.includes(tag.key)] *)
Definition isImportant (tag : Tag.t) : bool :=
  bool_decide (Tag.key tag ∈ importantTags).

(** The "Environment" block (essential tags only). *)
Definition environmentSection (o : FormatOptions) (event : Event.t)
  : Render string :=
  match Event.tags event with
  | Some ((_ :: _) as tags) =>
      do header <- this.createHeader o "Environment" 2 ;;
      let filteredTags := List.filter isImportant tags in
      if (0 <? length filteredTags)%nat
      then
        if isMarkdown o
        then
          let headers := ["Key"; "Value"] in
          let rows :=
            map (fun tag => [Tag.key tag; Tag.value tag]) filteredTags in
          do table <- this.createTable o headers rows ;;
          ret (header +:+ table)
        else
          let tagList :=
            map (fun tag => Tag.key tag +:+ ": " +:+ Tag.value tag)
                filteredTags in
          do list <- this.createList o tagList false ;;
          ret (header +:+ list)
      else ret header
  | _ => ret ""
  end.

(** [if (x && Object.keys(x).length > 0) Object.assign(additionalData, x)] *)
Definition assignNonEmpty (additionalData : obj) (x : option obj) : obj :=
  match x with
  | Some m =>
      if (0 <? length (keys m))%nat then assign additionalData (JObj m)
      else additionalData
  | None => additionalData
  end.

(** [if (x) Object.assign(additionalData, x)] *)
Definition assignTruthy (additionalData : obj) (x : value) : obj :=
  if truthy x then assign additionalData x else additionalData.

(** The frames of the first entry of type "stacktrace", under the guards
    [event.entries && event.entries.length > 0] and
    [stacktraceEntry && stacktraceEntry.data && stacktraceEntry.data.frames]. *)
Definition stacktraceFrames (event : Event.t) : option (list Frame.t) :=
  match Event.entries event with
  | Some ((_ :: _) as entries) =>
      match List.find (fun entry => String.eqb (Entry.type entry) "stacktrace")
                      entries with
      | Some stacktraceEntry => Entry.frames stacktraceEntry
      | None => None
      end
  | _ => None
  end.

(** [frame.vars && Object.keys(frame.vars).length > 0] *)
Definition hasVars (frame : Frame.t) : bool :=
  match Frame.vars frame with
  | Some vars => (0 <? length (keys vars))%nat
  | None => false
  end.

(** [frames.slice().reverse().find(...)] *)
Definition frameWithVars (frames : list Frame.t) : option Frame.t :=
  List.find hasVars (rev frames).

(** [typeof x === "object"] *)
Definition typeof_object (x : value) : bool :=
  match x with
  | JNull | JArr _ | JObj _ => true
  | _ => false
  end.

Definition assignFrameVars (additionalData : obj) (vars : obj) : obj :=
  let additionalData := assignTruthy additionalData (get vars "context") in
  let record := get vars "record" in
  if truthy record && typeof_object record
  then
    let additionalData := assignTruthy additionalData (prop record "context") in
    assignTruthy additionalData (prop record "extra")
  else additionalData.

(** The object [additionalData] as it stands before it is printed. *)
Definition additionalData (event : Event.t) : obj :=
  let additionalData := [] in
  let additionalData := assignNonEmpty additionalData (Event.context event) in
  let additionalData := assignNonEmpty additionalData (Event.contexts event) in
  let additionalData := assignNonEmpty additionalData (Event.extra event) in
  match stacktraceFrames event with
  | Some frames =>
      match frameWithVars frames with
      | Some frame =>
          match Frame.vars frame with
          | Some vars => assignFrameVars additionalData vars
          | None => additionalData
          end
      | None => additionalData
      end
  | None => additionalData
  end.

Definition additionalDataSection (o : FormatOptions) (event : Event.t)
  : Render string :=
  let additionalData := additionalData event in
  if (0 <? length (keys additionalData))%nat
  then
    do header <- this.createHeader o "Additional Data" 2 ;;
    ret (header +:+ "```json" +:+ nl +:+ JSON_stringify additionalData
         +:+ nl +:+ "```" +:+ nl +:+ nl)
  else ret "".

(** [frames.indexOf(frame)]: the first position holding that very object,
    [-1] when there is none. *)
Definition indexOf (frames : list Frame.t) (frame : Frame.t) : Z :=
  match list_find (fun f => Frame.oid f = Frame.oid frame) frames with
  | Some (i, _) => Z.of_nat i
  | None => -1
  end.

Definition appFrames (frames : list Frame.t) : list Frame.t :=
  List.filter Frame.inApp frames.

Definition framesToShow (frames : list Frame.t) : list Frame.t :=
  if (0 <? length (appFrames frames))%nat
  then slice_last 5 (appFrames frames)
  else slice_last 10 frames.

Definition frameNum (frames : list Frame.t) (frame : Frame.t) : Z :=
  indexOf frames frame + 1.

Definition lineNoText (frame : Frame.t) : string :=
  match Frame.lineNo frame with
  | Some n => pretty n
  | None => "null"
  end.

(** The source line of the frame, when the context has it. *)
Definition codeLine (frame : Frame.t) : string :=
  match Frame.context frame with
  | _ :: _ =>
      match List.find (fun line =>
                         match Frame.lineNo frame with
                         | Some n => (line.1 =? n)%Z
                         | None => false
                         end) (Frame.context frame) with
      | Some contextLine =>
          "- Code: `" +:+ trim contextLine.2 +:+ "`" +:+ nl
      | None => ""
      end
  | [] => ""
  end.

(** The body of [framesToShow.forEach]. *)
Definition formatFrame (frames : list Frame.t) (frame : Frame.t) : string :=
  "**Frame " +:+ pretty (frameNum frames frame) +:+ "**: `"
  +:+ tpl (Frame.filename frame) +:+ ":" +:+ lineNoText frame +:+ "`" +:+ nl
  +:+ "- Function: `" +:+ or_str (Frame.function frame) "N/A" +:+ "`" +:+ nl
  +:+ codeLine frame
  +:+ nl.

Definition stackTraceSection (o : FormatOptions) (event : Event.t)
  : Render string :=
  match stacktraceFrames event with
  | Some frames =>
      do header <- this.createHeader o "Stack Trace" 2 ;;
      let shown := framesToShow frames in
      let output :=
        foldl (fun output frame => output +:+ formatFrame frames frame)
              header shown in
      ret (if (length (appFrames frames) <? length frames)%nat
           then output +:+ "*Showing " +:+ pretty (length shown)
                +:+ " most relevant frames (" +:+ pretty (length frames)
                +:+ " total)*" +:+ nl +:+ nl
           else output)
  | None => ret ""
  end.

Definition userSection (o : FormatOptions) (event : Event.t)
  : Render string :=
  match Event.user event with
  | Some user =>
      if (0 <? length (List.filter (fun key => truthy (get user key))
                                   (keys user)))%nat
      then
        do header <- this.createHeader o "User Information" 2 ;;
        do ds <- userDetails o user ;;
        if (0 <? length ds)%nat
        then do list <- this.createList o ds false ;;
             ret (header +:+ list)
        else ret header
      else ret ""
  | None => ret ""
  end.

Definition formatSingleEvent (o : FormatOptions) (event : Event.t)
    (eventId : string) : Render string :=
  do output <- this.createHeader o ("Event Details: " +:+ eventId) 1 ;;
  do overview <- this.createHeader o "Error Overview" 2 ;;
  do i1 <- labelled o "Title"
             (or_str (or_opt (Event.title event) (Event.metadata_title event))
                     "N/A") ;;
  do i2 <- labelled o "Platform" (or_str (Event.platform event) "N/A") ;;
  do i3 <- labelled o "Date" (tpl (Event.dateCreated event)) ;;
  do i4 <- labelled o "Culprit" (or_str (Event.culprit event) "N/A") ;;
  do basicInfo <- this.createList o [i1; i2; i3; i4] false ;;
  do environment <- environmentSection o event ;;
  do additional <- additionalDataSection o event ;;
  do stack <- stackTraceSection o event ;;
  do user <- userSection o event ;;
  ret (output +:+ overview +:+ basicInfo +:+ environment +:+ additional
       +:+ stack +:+ user).

End Runtime.

(** What the specification says of the "Additional Data" map: the primary
    three sources merged in the order context, contexts, extra, and the
    variables of the last frame that has any merged in only when that
    merge is empty. *)
Definition spec_additionalData (event : Event.t) : obj :=
  let primary :=
    assignNonEmpty
      (assignNonEmpty (assignNonEmpty [] (Event.context event))
                      (Event.contexts event))
      (Event.extra event) in
  if (0 <? length (keys primary))%nat then primary
  else
    match stacktraceFrames event with
    | Some frames =>
        match frameWithVars frames with
        | Some frame =>
            match Frame.vars frame with
            | Some vars => assignFrameVars primary vars
            | None => primary
            end
        | None => primary
        end
    | None => primary
    end.

(** Sample frames and events. *)
Definition no_event : Event.t :=
  {| Event.eventID := None; Event.id := None; Event.title := None;
     Event.metadata_title := None; Event.platform := None;
     Event.dateCreated := None; Event.location := None;
     Event.event_type := None; Event.type := None; Event.culprit := None;
     Event.tags := None; Event.user := None; Event.context := None;
     Event.contexts := None; Event.extra := None; Event.entries := None |}.

Definition frame_at (oid : nat) (inApp : bool) (vars : option obj) : Frame.t :=
  {| Frame.oid := oid; Frame.filename := Some "app.py";
     Frame.lineNo := Some 10%Z; Frame.function := Some "handler";
     Frame.inApp := inApp; Frame.context := []; Frame.vars := vars |}.

(** An event whose only tag is outside the whitelist. *)
Definition ev_browser_tag : Event.t :=
  {| Event.eventID := None; Event.id := None; Event.title := None;
     Event.metadata_title := None; Event.platform := None;
     Event.dateCreated := None; Event.location := None;
     Event.event_type := None; Event.type := None; Event.culprit := None;
     Event.tags := Some [{| Tag.key := "browser"; Tag.value := "Chrome" |}];
     Event.user := None; Event.context := None;
     Event.contexts := None; Event.extra := None; Event.entries := None |}.

(** An event with a context map and a stack frame whose variables hold a
    [context] of their own. *)
Definition ev_context_and_vars : Event.t :=
  {| Event.eventID := None; Event.id := None; Event.title := None;
     Event.metadata_title := None; Event.platform := None;
     Event.dateCreated := None; Event.location := None;
     Event.event_type := None; Event.type := None; Event.culprit := None;
     Event.tags := None; Event.user := None;
     Event.context := Some [("roomId", JStr "42")];
     Event.contexts := None; Event.extra := None;
     Event.entries :=
       Some [{| Entry.type := "stacktrace";
                Entry.frames :=
                  Some [frame_at 0 true
                          (Some [("context",
                                  JObj [("roomId", JStr "7");
                                        ("local", JBool true)])])] |}] |}.

End IssueFormatter.

(* ===================================================================== *)
(** ** Error responses ([utils/errorHandler.ts]) *)
(* ===================================================================== *)

Module ErrorHandler.

(** A thrown [Error]; the handlers only ever read its [message]. *)
Record Error := { message : string }.

Record ContentItem := { type : string; text : string }.

(** The tool result; [isError] is absent ([false]) on success. *)
Record ToolResponse := { content : list ContentItem; isError : bool }.

(** [ErrorHandler.handleApiError]; the [console.error] line only logs. *)
Definition handleApiError (error : Error) (context : string) : ToolResponse :=
  {| content :=
       [{| type := "text";
           text := "Error in " +:+ context +:+ ": " +:+ message error |}];
     isError := true |}.

Definition handleValidationError (msg : string) : ToolResponse :=
  {| content := [{| type := "text"; text := "Validation error: " +:+ msg |}];
     isError := true |}.

Definition handleNotFoundError (resource identifier : string) : ToolResponse :=
  {| content :=
       [{| type := "text";
           text := resource +:+ " not found: " +:+ identifier |}];
     isError := true |}.

Definition success (output : string) : ToolResponse :=
  {| content := [{| type := "text"; text := output |}]; isError := false |}.

End ErrorHandler.
Import ErrorHandler.

(* ===================================================================== *)
(** ** API client and tool handlers ([api/sentryClient.ts], [index.ts]) *)
(* ===================================================================== *)

Module Server.

(** The result of running code that may throw. *)
Inductive Outcome (A : Type) : Type :=
| Return (a : A)
| Throw (e : Error).
Arguments Return {A} a.
Arguments Throw {A} e.

Record Request := { method : string; url : string }.

(** What [fetch] resolves to; [body_text] and [json] are the results of
    [response.text()] and [response.json()], which may reject. *)
Record Response := {
  ok : bool;
  status : Z;
  statusText : string;
  body_text : Outcome string;
  json : Outcome value
}.

(** [fetch] either rejects or resolves. *)
Inductive FetchOutcome :=
| Rejected (e : Error)
| Resolved (r : Response).

(** Asynchronous code: it may throw, and it issues requests, which are
    appended to the log of the requests sent so far. *)
Definition Async (A : Type) : Type :=
  list Request -> Outcome A * list Request.

Definition aret {A} (a : A) : Async A := fun log => (Return a, log).

Definition athrow {A} (e : Error) : Async A := fun log => (Throw e, log).

Definition abind {A B} (m : Async A) (k : A -> Async B) : Async B :=
  fun log =>
    match m log with
    | (Return a, log') => k a log'
    | (Throw e, log') => (Throw e, log')
    end.

Definition lift {A} (x : Outcome A) : Async A := fun log => (x, log).

(** [try { m } catch (error) { return h(error) }] *)
Definition try_catch {A} (m : Async A) (h : Error -> Async A) : Async A :=
  fun log =>
    match m log with
    | (Return a, log') => (Return a, log')
    | (Throw e, log') => h e log'
    end.

Definition obind {A B} (x : Outcome A) (k : A -> Outcome B) : Outcome B :=
  match x with
  | Return a => k a
  | Throw e => Throw e
  end.

Declare Scope async_scope.
Delimit Scope async_scope with async.
Notation "'await' x <- m ;; k" := (abind m (fun x => k))
  (at level 10, x name, m at level 99, k at level 200) : async_scope.
Local Open Scope async_scope.

(** [s.split(sep)] for a one-character separator. *)
Fixpoint split (sep : ascii) (s : string) : list string :=
  match s with
  | "" => [""]
  | String c s' =>
      if Ascii.eqb c sep then "" :: split sep s'
      else match split sep s' with
           | [] => [String c ""]
           | w :: ws => String c w :: ws
           end
  end.

(** [pathname.split("/").filter((part) => part)] *)
Definition pathParts (pathname : string) : list string :=
  List.filter (fun part => negb (String.eqb part "")) (split "/" pathname).

(** [v.k] on a value of unknown shape: reading a member of [undefined] or
    [null] throws a [TypeError]. *)
Definition member (v : value) (k : string) : Outcome value :=
  match v with
  | JUndefined | JNull =>
      Throw {| message := "Cannot read properties of " +:+ toStr v
                          +:+ " (reading '" +:+ k +:+ "')" |}
  | _ => Return (prop v k)
  end.

(** The tools and their arguments. *)
Inductive Call :=
| list_projects (organization_slug : string) (view : ViewType)
    (format : FormatType)
| list_project_issues (organization_slug project_slug : string)
    (view : ViewType) (format : FormatType)
| get_sentry_issue (issue_id_or_url organization_slug : string)
    (view : ViewType) (format : FormatType)
| list_issue_events (organization_slug issue_id : string)
    (view : ViewType) (format : FormatType)
| resolve_short_id (organization_slug short_id : string) (format : FormatType)
| extract_issue_context_data (organization_slug issue_id : string)
    (extract_fields : list string)
| get_sentry_event (issue_id_or_url event_id organization_slug : string)
    (view : ViewType) (format : FormatType).

(** Lines 369-424 of the [extract_issue_context_data] handler: the result
    object, or the [TypeError] thrown on the way. *)
Definition extractContextData (events : list obj)
    (extract_fields : list string) : Outcome Extract.ExtractionResult :=
  match Extract.failure events extract_fields with
  | Some msg => Throw {| message := msg |}
  | None => Return (Extract.extract events extract_fields)
  end.

(** The name each handler passes to [handleApiError]. *)
Definition tool_name (c : Call) : string :=
  match c with
  | list_projects _ _ _ => "list_projects"
  | list_project_issues _ _ _ _ => "list_project_issues"
  | get_sentry_issue _ _ _ _ => "get_sentry_issue"
  | list_issue_events _ _ _ _ => "list_issue_events"
  | resolve_short_id _ _ _ => "resolve_short_id"
  | extract_issue_context_data _ _ _ => "extract_issue_context_data"
  | get_sentry_event _ _ _ _ _ => "get_sentry_event"
  end.

Section Server.

(** The outside world.  [network log request] is what [fetch] answers to
    [request] once the requests of [log] have been sent. *)
Variable network : list Request -> Request -> FetchOutcome.

(** [new URL(s).pathname]; throws on a string that is no URL. *)
Variable URL_pathname : string -> Outcome string.

(** The casts from [any] to the entity types of [types.ts] (a renderer
    handed a payload of another shape throws), the renderer of a single
    issue, and the built-ins the renderers use. *)
Variable asProjects : value -> Outcome (list ProjectFormatter.SentryProject).
Variable asIssues : value -> Outcome (list IssueFormatter.Issue.t).
Variable asEvents : value -> Outcome (list IssueFormatter.Event.t).
Variable asEvent : value -> Outcome IssueFormatter.Event.t.
Variable asObjects : value -> Outcome (list obj).
Variable formatIssueDetails : FormatOptions -> value -> Outcome string.
Variable toISOString : Z -> string.
Variable JSON_stringify : obj -> string.
Variable JSON_stringify_result : Extract.ExtractionResult -> string.
Variable trim : string -> string.

(** *** [SentryApiClient] *)

Variable baseUrl : string.

Definition makeRequest (endpoint method : string) : Async Response :=
  fun log =>
    let request :=
      {| method := method; url := baseUrl +:+ "/api/0" +:+ endpoint |} in
    (match network log request with
     | Rejected e => Throw e
     | Resolved response => Return response
     end, log ++ [request]).

Definition get (endpoint : string) : Async value :=
  await response <- makeRequest endpoint "GET" ;;
  if negb (ok response)
  then
    await errorText <- lift (body_text response) ;;
    athrow {| message :=
                "API request failed: " +:+ pretty (status response) +:+ " "
                +:+ statusText response +:+ " - " +:+ errorText |}
  else lift (json response).

Definition getProjects (organizationSlug : string) : Async value :=
  get ("/organizations/" +:+ organizationSlug +:+ "/projects/").

(** Called without [query]. *)
Definition getProjectIssues (organizationSlug projectSlug : string)
  : Async value :=
  get ("/projects/" +:+ organizationSlug +:+ "/" +:+ projectSlug
       +:+ "/issues/").

Definition getIssue (organizationSlug issueId : string) : Async value :=
  get ("/organizations/" +:+ organizationSlug +:+ "/issues/" +:+ issueId
       +:+ "/").

Definition getIssueEvents (organizationSlug issueId : string) (full : bool)
  : Async value :=
  let endpoint := "/issues/" +:+ issueId +:+ "/events/" in
  get (if full then endpoint +:+ "?full=true" else endpoint).

Definition resolveShortId (organizationSlug shortId : string) : Async value :=
  get ("/organizations/" +:+ organizationSlug +:+ "/shortids/" +:+ shortId
       +:+ "/").

Definition getIssueEvent (organizationSlug issueId eventId : string)
  : Async value :=
  await issue <- getIssue organizationSlug issueId ;;
  await projectSlug <-
    lift (obind (member issue "project") (fun p => member p "slug")) ;;
  get ("/projects/" +:+ organizationSlug +:+ "/" +:+ toStr projectSlug
       +:+ "/events/" +:+ eventId +:+ "/").

(** *** The tool handlers *)

(** The text of [resolve_short_id], built in the handler itself. *)
Definition shortIdOutput (format : FormatType) (data : value)
  : Outcome string :=
  obind (member data "shortId") (fun shortId =>
  obind (member data "group") (fun group =>
  obind (member group "title") (fun title =>
  obind (member group "status") (fun status =>
  obind (member group "level") (fun level =>
  obind (member group "count") (fun count =>
  obind (member group "userCount") (fun userCount =>
  obind (member group "permalink") (fun permalink =>
  Return
    match format with
    | markdown =>
        "# Issue Details: " +:+ toStr shortId +:+ nl +:+ nl
        +:+ "## Issue Information" +:+ nl +:+ nl
        +:+ "- **Title**: " +:+ toStr title +:+ nl
        +:+ "- **Status**: " +:+ toStr status +:+ nl
        +:+ "- **Level**: " +:+ toStr level +:+ nl
        +:+ "- **Event Count**: " +:+ toStr count +:+ nl
        +:+ "- **User Count**: " +:+ toStr userCount +:+ nl
        +:+ "- **Permalink**: [" +:+ toStr permalink +:+ "]("
        +:+ toStr permalink +:+ ")" +:+ nl
    | plain =>
        "Issue Details: " +:+ toStr shortId +:+ nl +:+ nl
        +:+ "Title: " +:+ toStr title +:+ nl
        +:+ "Status: " +:+ toStr status +:+ nl
        +:+ "Level: " +:+ toStr level +:+ nl
        +:+ "Event Count: " +:+ toStr count +:+ nl
        +:+ "User Count: " +:+ toStr userCount +:+ nl
        +:+ "Permalink: " +:+ toStr permalink +:+ nl
    end)))))))).

(** The issue id of [get_sentry_issue]: taken from the URL when one is
    given ([new URL] may throw). *)
Definition issueIdOf (issue_id_or_url : string) : Outcome string :=
  if String.prefix "http" issue_id_or_url
  then
    obind (URL_pathname issue_id_or_url) (fun pathname =>
      let parts := pathParts pathname in
      Return
        (if (4 <=? length parts)%nat
            && bool_decide (parts !! 2%nat = Some "issues")
         then default issue_id_or_url (parts !! 3%nat)
         else issue_id_or_url))
  else Return issue_id_or_url.

(** The organization, issue and event of [get_sentry_event]; a URL that
    fails to parse leaves the arguments as given. *)
Definition eventTargetOf (issue_id_or_url event_id organization_slug : string)
  : string * string * string :=
  if String.prefix "http" issue_id_or_url
  then
    match URL_pathname issue_id_or_url with
    | Return pathname =>
        let parts := pathParts pathname in
        if (2 <=? length parts)%nat
           && bool_decide (parts !! 0%nat = Some "organizations")
        then
          let organizationSlug := default organization_slug (parts !! 1%nat) in
          let issueId :=
            if (4 <=? length parts)%nat
               && bool_decide (parts !! 2%nat = Some "issues")
            then default issue_id_or_url (parts !! 3%nat)
            else issue_id_or_url in
          let extractedEventId :=
            if (6 <=? length parts)%nat
               && bool_decide (parts !! 4%nat = Some "events")
            then default event_id (parts !! 5%nat)
            else event_id in
          (organizationSlug, issueId, extractedEventId)
        else (organization_slug, issue_id_or_url, event_id)
    | Throw _ => (organization_slug, issue_id_or_url, event_id)
    end
  else (organization_slug, issue_id_or_url, event_id).

(** The [try] block of each handler. *)
Definition tool_body (c : Call) : Async ToolResponse :=
  match c with
  | list_projects organization_slug view format =>
      await projects <- getProjects organization_slug ;;
      await projects <- lift (asProjects projects) ;;
      let o := {| BaseFormatter.format := format;
                  BaseFormatter.view := view |} in
      aret (success (output (ProjectFormatter.formatData o projects)))
  | list_project_issues organization_slug project_slug view format =>
      await issues <- getProjectIssues organization_slug project_slug ;;
      await issues <- lift (asIssues issues) ;;
      let o := {| BaseFormatter.format := format;
                  BaseFormatter.view := view |} in
      aret (success (output (IssueFormatter.formatIssueList
                               toISOString o issues project_slug)))
  | get_sentry_issue issue_id_or_url organization_slug view format =>
      await issueId <- lift (issueIdOf issue_id_or_url) ;;
      await issue <- getIssue organization_slug issueId ;;
      let o := {| BaseFormatter.format := format;
                  BaseFormatter.view := view |} in
      await output <- lift (formatIssueDetails o issue) ;;
      aret (success output)
  | list_issue_events organization_slug issue_id view format =>
      await events <- getIssueEvents organization_slug issue_id false ;;
      await events <- lift (asEvents events) ;;
      let o := {| BaseFormatter.format := format;
                  BaseFormatter.view := view |} in
      aret (success (output (IssueFormatter.formatEventList
                               o events ("Issue " +:+ issue_id))))
  | resolve_short_id organization_slug short_id format =>
      await data <- resolveShortId organization_slug short_id ;;
      await output <- lift (shortIdOutput format data) ;;
      aret (success output)
  | extract_issue_context_data organization_slug issue_id extract_fields =>
      await events <- getIssueEvents organization_slug issue_id true ;;
      await events <- lift (asObjects events) ;;
      await result <- lift (extractContextData events extract_fields) ;;
      aret (success (JSON_stringify_result result))
  | get_sentry_event issue_id_or_url event_id organization_slug view format =>
      let '(organizationSlug, issueId, extractedEventId) :=
        eventTargetOf issue_id_or_url event_id organization_slug in
      await event <- getIssueEvent organizationSlug issueId extractedEventId ;;
      await event <- lift (asEvent event) ;;
      let o := {| BaseFormatter.format := format;
                  BaseFormatter.view := view |} in
      aret (success (output (IssueFormatter.formatSingleEvent
                               JSON_stringify trim o event extractedEventId)))
  end.

(** [try { ... } catch (error) { return ErrorHandler.handleApiError(error,
    "<tool>") }] *)
Definition handler (c : Call) : Async ToolResponse :=
  try_catch (tool_body c)
            (fun error => aret (handleApiError error (tool_name c))).

(** The error a request ends in, if any: the rejection of [fetch], or,
    on a response that is not [ok], the [Error] that [get] throws (the
    rejection of [response.text()] when the body cannot be read). *)
Definition fetch_failure (answer : FetchOutcome) : option Error :=
  match answer with
  | Rejected e => Some e
  | Resolved response =>
      if ok response then None
      else Some match body_text response with
                | Return errorText =>
                    {| message :=
                         "API request failed: " +:+ pretty (status response)
                         +:+ " " +:+ statusText response +:+ " - "
                         +:+ errorText |}
                | Throw e => e
                end
  end.

(** A computation accounts for the requests it sends: the log only grows,
    and a request that fails is the last one sent, its error being the one
    the computation throws. *)
Definition reports_failures {A} (m : Async A) : Prop :=
  forall log,
    exists sent,
      (m log).2 = log ++ sent /\
      forall pre request post e,
        sent = pre ++ request :: post ->
        fetch_failure (network (log ++ pre) request) = Some e ->
        post = [] /\ (m log).1 = Throw e.

End Server.

(** A network that answers every request with status 503. *)
Definition unavailable : Response :=
  {| ok := false; status := 503; statusText := "Service Unavailable";
     body_text := Return "down"; json := Return JNull |}.

Definition network_down (log : list Request) (request : Request)
  : FetchOutcome :=
  Resolved unavailable.

End Server.

(* ===================================================================== *)
(** ** Single issue ([formatIssueDetails], [formatters/issueFormatter.ts]) *)
(* ===================================================================== *)

Module IssueDetails.
Import IssueFormatter.

(** Modelled from the spec: the type [SentryIssueDetailsResponse] of
    [types.ts], which is not among the sources; the fields are those the
    renderer reads. *)
Record ProjectRef := {
  project_name : string;
  project_id : string;
  project_slug : string
}.

Record ReleaseProject := { rp_name : string; rp_slug : string }.

Record Release := {
  version : string;
  shortVersion : string;
  release_dateCreated : string;
  firstEvent : string;
  lastEvent : string;
  projects : option (list ReleaseProject)
}.

Record t := {
  id : string;
  shortId : string;
  title : string;
  status : string;
  level : string;
  firstSeen : string;
  lastSeen : string;
  count : string;
  userCount : Z;
  culprit : string;
  permalink : string;
  project : ProjectRef;
  firstRelease : option Release;
  tags : option (list Tag.t);
  (** [issue.stats["24h"]], pairs of (unix seconds, count) *)
  stats24h : option (list (Z * Z))
}.

Section Runtime.

Variable toISOString : Z -> string.

(** The "First Release" block. *)
Definition formatFirstRelease (o : FormatOptions) (release : option Release)
  : Render string :=
  match release with
  | Some firstRelease =>
      do header <- this.createHeader o "First Release" 2 ;;
      do r1 <- labelled o "Version" (version firstRelease) ;;
      do r2 <- labelled o "Short Version" (shortVersion firstRelease) ;;
      do r3 <- labelled o "Date Created" (release_dateCreated firstRelease) ;;
      do r4 <- labelled o "First Event" (firstEvent firstRelease) ;;
      do r5 <- labelled o "Last Event" (lastEvent firstRelease) ;;
      do list <- this.createList o [r1; r2; r3; r4; r5] false ;;
      match projects firstRelease with
      | Some ((_ :: _) as ps) =>
          let projects :=
            map (fun p => rp_name p +:+ " (" +:+ rp_slug p +:+ ")") ps in
          do bold <- this.createBold o "Projects" ;;
          do plist <- this.createList o projects false ;;
          ret (header +:+ list +:+ bold +:+ ":" +:+ nl +:+ plist)
      | _ => ret (header +:+ list)
      end
  | None => ret ""
  end.

(** The "Tags" block. *)
Definition formatTags (o : FormatOptions) (tags : option (list Tag.t))
  : Render string :=
  match tags with
  | Some ((_ :: _) as tags) =>
      do header <- this.createHeader o "Tags" 2 ;;
      if isMarkdown o
      then
        let headers := ["Key"; "Value"] in
        let rows := map (fun tag => [Tag.key tag; Tag.value tag]) tags in
        do table <- this.createTable o headers rows ;;
        ret (header +:+ table)
      else
        ret (foldl (fun output tag =>
                      output +:+ Tag.key tag +:+ ": " +:+ Tag.value tag
                      +:+ nl)
                   header tags +:+ nl)
  | _ => ret ""
  end.

Definition formatDetailedIssue (o : FormatOptions) (issue : t)
  : Render string :=
  do output <- this.createHeader o ("Issue: " +:+ title issue) 1 ;;
  do overview <- this.createHeader o "Overview" 2 ;;
  do d1 <- labelled o "ID" (id issue) ;;
  do d2 <- labelled o "Short ID" (shortId issue) ;;
  do d3 <- labelled o "Status" (status issue) ;;
  do d4 <- labelled o "Level" (level issue) ;;
  do d5 <- labelled o "First Seen" (firstSeen issue) ;;
  do d6 <- labelled o "Last Seen" (lastSeen issue) ;;
  do d7 <- labelled o "Event Count" (count issue) ;;
  do d8 <- labelled o "User Count" (pretty (userCount issue)) ;;
  do d9 <- labelled o "Culprit" (culprit issue) ;;
  do bold <- this.createBold o "Permalink" ;;
  do link <- this.createLink o (permalink issue) (permalink issue) ;;
  do overviewDetails <- this.createList o
       [d1; d2; d3; d4; d5; d6; d7; d8; d9; bold +:+ ": " +:+ link] false ;;
  do projectHeader <- this.createHeader o "Project" 2 ;;
  do p1 <- labelled o "Name" (project_name (project issue)) ;;
  do p2 <- labelled o "ID" (project_id (project issue)) ;;
  do p3 <- labelled o "Slug" (project_slug (project issue)) ;;
  do projectDetails <- this.createList o [p1; p2; p3] false ;;
  do release <- formatFirstRelease o (firstRelease issue) ;;
  do tags <- formatTags o (tags issue) ;;
  do stats <- formatStats24h toISOString o 2 (stats24h issue) ;;
  ret (output +:+ overview +:+ overviewDetails +:+ projectHeader
       +:+ projectDetails +:+ release +:+ tags +:+ stats).

(** [let total24h = 0; for (const [_, count] of stats) total24h += count] *)
Definition total24h (stats : list (Z * Z)) : Z :=
  foldl (fun total b => (total + b.2)%Z) 0%Z stats.

Definition formatSummaryIssue (o : FormatOptions) (issue : t)
  : Render string :=
  do output <- this.createHeader o ("Issue: " +:+ title issue) 1 ;;
  do d1 <- labelled o "Short ID" (shortId issue) ;;
  do b2 <- this.createBold o "Status" ;;
  do b2' <- this.createBold o "Level" ;;
  do b3 <- this.createBold o "First Seen" ;;
  do b3' <- this.createBold o "Last Seen" ;;
  do b4 <- this.createBold o "Events" ;;
  do b4' <- this.createBold o "Users Affected" ;;
  do d5 <- labelled o "Project" (project_name (project issue)) ;;
  do b6 <- this.createBold o "Permalink" ;;
  do link <- this.createLink o (permalink issue) (permalink issue) ;;
  do details <- this.createList o
       [d1;
        b2 +:+ ": " +:+ status issue +:+ ", " +:+ b2' +:+ ": "
           +:+ level issue;
        b3 +:+ ": " +:+ firstSeen issue +:+ ", " +:+ b3' +:+ ": "
           +:+ lastSeen issue;
        b4 +:+ ": " +:+ count issue +:+ ", " +:+ b4' +:+ ": "
           +:+ pretty (userCount issue);
        d5;
        b6 +:+ ": " +:+ link] false ;;
  match stats24h issue with
  | Some ((_ :: _) as stats) =>
      do bold <- this.createBold o "24-Hour Event Count" ;;
      ret (output +:+ details +:+ nl +:+ bold +:+ ": "
           +:+ pretty (total24h stats) +:+ nl)
  | _ => ret (output +:+ details)
  end.

Definition formatIssueDetails (o : FormatOptions) (issue : t)
  : Render string :=
  if isDetailed o then formatDetailedIssue o issue
  else formatSummaryIssue o issue.

End Runtime.

(** The issue with other 24-hour buckets. *)
Definition with_stats (issue : t) (stats : option (list (Z * Z))) : t :=
  {| id := id issue; shortId := shortId issue; title := title issue;
     status := status issue; level := level issue;
     firstSeen := firstSeen issue; lastSeen := lastSeen issue;
     count := count issue; userCount := userCount issue;
     culprit := culprit issue; permalink := permalink issue;
     project := project issue; firstRelease := firstRelease issue;
     tags := tags issue; stats24h := stats |}.

Definition sample_issue (stats : option (list (Z * Z))) : t :=
  {| id := "1"; shortId := "APP-1"; title := "Boom"; status := "unresolved";
     level := "error"; firstSeen := "t0"; lastSeen := "t1"; count := "8";
     userCount := 2; culprit := "handler"; permalink := "https://s/1";
     project := {| project_name := "App"; project_id := "7";
                   project_slug := "app" |};
     firstRelease := None; tags := None; stats24h := stats |}.

End IssueDetails.

(* ===================================================================== *)
(** ** Start-up configuration ([index.ts], lines 18-26) *)
(* ===================================================================== *)

Module Config.

(** The base URL handed to the API client, from the environment variables
    [PROTOCOL] and [SENTRY_HOST] ([None] when unset). *)
Definition sentryHost (PROTOCOL SENTRY_HOST : option string) : string :=
  let protocol := or_str PROTOCOL "https" in
  let sentryHost := or_str SENTRY_HOST "sentry.io" in
  if negb (String.eqb sentryHost "")
     && negb (String.prefix "http://" sentryHost)
     && negb (String.prefix "https://" sentryHost)
  then protocol +:+ "://" +:+ sentryHost
  else sentryHost.

End Config.

(* ===================================================================== *)
(** ** Vocabulary for the properties of the handlers *)
(* ===================================================================== *)

Module Traffic.
Import Server.

(** Whether a character occurs in a string. *)
Fixpoint occurs (c : ascii) (s : string) : bool :=
  match s with
  | "" => false
  | String c' s' => Ascii.eqb c' c || occurs c s'
  end.

(** A path segment: not empty, and without a slash. *)
Definition segment (s : string) : Prop :=
  s <> "" /\ occurs "/" s = false.

(** A request of the API client: a GET under [baseUrl/api/0]. *)
Definition api_get (baseUrl : string) (request : Request) : Prop :=
  method request = "GET" /\
  exists endpoint, url request = baseUrl +:+ "/api/0" +:+ endpoint.

(** A computation that sends at most [n] requests, all of them API GETs. *)
Definition sends_at_most (baseUrl : string) (n : nat) {A} (m : Async A)
  : Prop :=
  forall log,
    exists sent,
      (m log).2 = log ++ sent /\
      length sent <= n /\
      Forall (api_get baseUrl) sent.

(** A computation that, when it returns, returns a success response. *)
Definition returns_success (m : Async ToolResponse) : Prop :=
  forall log response,
    (m log).1 = Return response -> exists output, response = success output.

End Traffic.

(* ===================================================================== *)
(** ** More sample inputs *)
(* ===================================================================== *)

Module Samples.
Import IssueFormatter.

(** A user whose only property is none of the four the renderer prints. *)
Definition ev_named_user : Event.t :=
  {| Event.eventID := None; Event.id := None; Event.title := None;
     Event.metadata_title := None; Event.platform := None;
     Event.dateCreated := None; Event.location := None;
     Event.event_type := None; Event.type := None;
     Event.culprit := None; Event.tags := None;
     Event.user := Some [("name", JStr "ann")];
     Event.context := None; Event.contexts := None;
     Event.extra := None; Event.entries := None |}.


(** Seven frames, all but the second in the application: six in-app
    frames, of which the first is cut. *)
Definition seven_frames : list Frame.t :=
  [frame_at 0 true None; frame_at 1 false None; frame_at 2 true None;
   frame_at 3 true None; frame_at 4 true None; frame_at 5 true None;
   frame_at 6 true None].

Definition ev_seven_frames : Event.t :=
  {| Event.eventID := None; Event.id := None; Event.title := None;
     Event.metadata_title := None; Event.platform := None;
     Event.dateCreated := None; Event.location := None;
     Event.event_type := None; Event.type := None;
     Event.culprit := None; Event.tags := None; Event.user := None;
     Event.context := None; Event.contexts := None; Event.extra := None;
     Event.entries :=
       Some [{| Entry.type := "stacktrace";
                Entry.frames := Some seven_frames |}] |}.

(** A cast that rejects every payload. *)
Definition no_cast {A} (payload : value) : Server.Outcome A :=
  Server.Throw {| ErrorHandler.message := "unexpected payload" |}.


Definition invalid_url (s : string) : Server.Outcome string :=
  Server.Throw {| ErrorHandler.message := "Invalid URL" |}.

(** A network on which every request is answered with an issue that has
    no [project]. *)
Definition issue_without_project : obj := [("id", JStr "42")].

Definition bare_issue_response : Server.Response :=
  {| Server.ok := true; Server.status := 200; Server.statusText := "OK";
     Server.body_text := Server.Return "";
     Server.json := Server.Return (JObj issue_without_project) |}.

Definition network_bare_issue (log : list Server.Request)
    (request : Server.Request) : Server.FetchOutcome :=
  Server.Resolved bare_issue_response.

End Samples.

(* ===================================================================== *)
(** * Properties *)
(* ===================================================================== *)

(** ** Objects *)

Lemma get_set (o : obj) (k k' : string) (v : value) :
  get (set o k v) k' = if decide (k' = k) then v else get o k'.
Proof.
  induction o as [|[k0 v0] o IH]; simpl.
  - destruct (decide (k' = k)); reflexivity.
  - destruct (decide (k = k0)) as [->|Hk]; simpl.
    + destruct (decide (k' = k0)); reflexivity.
    + destruct (decide (k' = k0)) as [->|Hk'].
      * destruct (decide (k0 = k)); congruence.
      * apply IH.
Qed.

Lemma is_undefined_true (v : value) : is_undefined v = true -> v = JUndefined.
Proof. destruct v; simpl; congruence. Qed.

Lemma defined_false (v : value) : defined v = false -> v = JUndefined.
Proof. unfold defined. destruct v; simpl; congruence. Qed.

(** ** The context extractor *)

Lemma get_not_own (o : obj) (k : string) : k ∉ keys o -> get o k = JUndefined.
Proof.
  induction o as [|[k0 v0] o IH]; [done|]. cbn [keys map fst get].
  intros Hnin. apply not_elem_of_cons in Hnin as [Hne Hnin].
  rewrite decide_False by done. by apply IH.
Qed.

Lemma elem_of_keys_set (o : obj) (k k' : string) (v : value) :
  k' ∈ keys (set o k v) <-> k' = k \/ k' ∈ keys o.
Proof.
  induction o as [|[k0 v0] o IH]; cbn [set keys map fst].
  - rewrite list_elem_of_singleton, elem_of_nil. tauto.
  - destruct (decide (k = k0)) as [->|Hne]; cbn [map fst].
    + rewrite !elem_of_cons. tauto.
    + fold (keys (set o k v)). fold (keys o). rewrite !elem_of_cons, IH. tauto.
Qed.

(** A name that is not an own property reads as [undefined] in [prop],
    which leaves the prototype out. *)
Lemma prop_not_own (v : value) (k : string) :
  own v k = false -> prop v k = JUndefined.
Proof.
  destruct v as [| | | | s|xs|o]; try done; cbn [own prop].
  - intros [Hlen Hidx]%orb_false_iff.
    apply bool_decide_eq_false in Hlen, Hidx.
    rewrite decide_False by done. by apply get_not_own.
  - intros [Hlen Hidx]%orb_false_iff.
    apply bool_decide_eq_false in Hlen, Hidx.
    rewrite decide_False by done. by apply get_not_own.
  - intros Hk%bool_decide_eq_false. by apply get_not_own.
Qed.

(** Under a name that [Object.prototype] does not have, a value answers
    with its own properties only. *)
Lemma has_not_inherited (v : value) (k : string) :
  inherited k = false -> has v k = defined (prop v k).
Proof.
  intros Hk. unfold has. destruct (own v k) eqn:Hown; [done|].
  by rewrite Hk, prop_not_own.
Qed.

(** A record that has no own property under a name of [Object.prototype]:
    reading it finds the own value, or the inherited member. *)
Lemma has_record (r : obj) (k : string) :
  (forall k', k' ∈ keys r -> inherited k' = false) ->
  has (JObj r) k = defined (get r k) || inherited k.
Proof.
  intros Hclean. unfold has. cbn [own prop]. case_bool_decide as Hin.
  - by rewrite (Hclean k Hin), orb_false_r.
  - by rewrite get_not_own.
Qed.

Section ExtractProps.
Import Extract.

Implicit Types (st : obj * gmap string (list string)) (k f : string).

(** The source loop, in closed form: it fires at most once, on the first
    source that defines the field, and only when the record reads
    [undefined] under that name: no own value yet, and no member of
    [Object.prototype] of that name. *)
Lemma scan_sources_spec srcs f st :
  (forall k, k ∈ keys st.1 -> inherited k = false) ->
  scan_sources srcs f st =
  if is_undefined (get st.1 f) && negb (inherited f)
     && defined (first_defined_in srcs f)
  then (set st.1 f (first_defined_in srcs f),
        alter (Set_add (toStr (first_defined_in srcs f))) f st.2)
  else st.
Proof.
  intros Hclean.
  assert (HG : negb (has (JObj st.1) f)
               = is_undefined (get st.1 f) && negb (inherited f)).
  { rewrite has_record by done. unfold defined.
    by rewrite negb_orb, negb_involutive. }
  destruct (inherited f) eqn:Hinh.
  - rewrite andb_false_r. cbn [andb].
    induction srcs as [|s rest IH]; cbn [scan_sources]; [done|].
    by rewrite HG, !andb_false_r.
  - rewrite andb_true_r in *.
    induction srcs as [|s rest IH]; cbn [scan_sources first_defined_in].
    + by rewrite andb_false_r.
    + rewrite HG, has_not_inherited by done.
      destruct (truthy s && defined (prop s f)) eqn:Hs; cbn [andb].
      * destruct (is_undefined (get st.1 f)) eqn:Hu; cbn [andb].
        -- apply andb_true_iff in Hs as [_ ->]. done.
        -- done.
      * apply IH.
Qed.

(** The loop never creates an own property under a name of
    [Object.prototype]. *)
Lemma scan_sources_clean srcs f st :
  (forall k, k ∈ keys st.1 -> inherited k = false) ->
  forall k, k ∈ keys (scan_sources srcs f st).1 -> inherited k = false.
Proof.
  intros Hclean k. rewrite scan_sources_spec by done.
  destruct (is_undefined (get st.1 f) && negb (inherited f)
            && defined (first_defined_in srcs f)) eqn:Hfire; [|apply Hclean].
  cbn [fst]. rewrite elem_of_keys_set. intros [->|Hk]; [|by apply Hclean].
  apply andb_true_iff in Hfire as [[_ Hinh]%andb_true_iff _].
  by apply negb_true_iff in Hinh.
Qed.

Lemma fields_loop_clean srcs fs st :
  (forall k, k ∈ keys st.1 -> inherited k = false) ->
  forall k, k ∈ keys (foldl (fun st f => scan_sources srcs f st) st fs).1 ->
            inherited k = false.
Proof.
  revert st. induction fs as [|f fs IH]; intros st Hclean; cbn [foldl];
    [done|].
  by apply IH, scan_sources_clean.
Qed.

Lemma fields_loop_get srcs fs st k :
  (forall k, k ∈ keys st.1 -> inherited k = false) ->
  get (foldl (fun st f => scan_sources srcs f st) st fs).1 k =
  if bool_decide (k ∈ fs) && is_undefined (get st.1 k) && negb (inherited k)
  then first_defined_in srcs k else get st.1 k.
Proof.
  revert st. induction fs as [|f fs IH]; intros st Hclean; cbn [foldl];
    [done|].
  rewrite IH by by apply scan_sources_clean.
  rewrite scan_sources_spec by done.
  destruct (decide (k = f)) as [->|Hne].
  - rewrite (bool_decide_eq_true_2 (f ∈ f :: fs)) by apply list_elem_of_here.
    cbn [andb].
    destruct (is_undefined (get st.1 f)) eqn:Hu; cbn [andb].
    + destruct (inherited f) eqn:Hinh; cbn [andb negb].
      * by rewrite !andb_false_r.
      * destruct (defined (first_defined_in srcs f)) eqn:Hd; cbn [fst].
        -- rewrite get_set, decide_True by done.
           unfold defined in Hd. apply negb_true_iff in Hd. rewrite Hd.
           by rewrite andb_false_r.
        -- rewrite Hu, andb_true_r. apply defined_false in Hd.
           apply is_undefined_true in Hu. rewrite Hd, Hu.
           by case_bool_decide.
    + by rewrite Hu, andb_false_r.
  - assert (bool_decide (k ∈ f :: fs) = bool_decide (k ∈ fs)) as ->.
    { apply bool_decide_ext. rewrite elem_of_cons. tauto. }
    destruct (is_undefined (get st.1 f) && negb (inherited f)
              && defined (first_defined_in srcs f));
      cbn [fst]; [|done].
    by rewrite get_set, decide_False.
Qed.

Lemma fields_loop_uv srcs fs st k :
  (forall k, k ∈ keys st.1 -> inherited k = false) ->
  (foldl (fun st f => scan_sources srcs f st) st fs).2 !! k =
  if bool_decide (k ∈ fs) && is_undefined (get st.1 k) && negb (inherited k)
     && defined (first_defined_in srcs k)
  then Set_add (toStr (first_defined_in srcs k)) <$> st.2 !! k
  else st.2 !! k.
Proof.
  revert st. induction fs as [|f fs IH]; intros st Hclean; cbn [foldl];
    [done|].
  rewrite IH by by apply scan_sources_clean.
  rewrite scan_sources_spec by done.
  destruct (decide (k = f)) as [->|Hne].
  - rewrite (bool_decide_eq_true_2 (f ∈ f :: fs)) by apply list_elem_of_here.
    cbn [andb].
    destruct (is_undefined (get st.1 f) && negb (inherited f)
              && defined (first_defined_in srcs f)) eqn:Hfire; cbn [fst snd].
    + rewrite get_set, decide_True by done.
      apply andb_true_iff in Hfire as [_ Hd].
      unfold defined in Hd. apply negb_true_iff in Hd.
      rewrite Hd, andb_false_r. cbn [andb]. by rewrite lookup_alter_eq.
    + rewrite <- !andb_assoc in Hfire. rewrite <- !andb_assoc, Hfire.
      by rewrite andb_false_r.
  - assert (bool_decide (k ∈ f :: fs) = bool_decide (k ∈ fs)) as ->.
    { apply bool_decide_ext. rewrite elem_of_cons. tauto. }
    destruct (is_undefined (get st.1 f) && negb (inherited f)
              && defined (first_defined_in srcs f));
      cbn [fst snd]; [|done].
    rewrite get_set, decide_False by done.
    by rewrite lookup_alter_ne by done.
Qed.

(** The record part of the state does not depend on the sets. *)
Lemma scan_sources_record srcs f (r : obj)
    (u u' : gmap string (list string)) :
  (scan_sources srcs f (r, u)).1 = (scan_sources srcs f (r, u')).1.
Proof.
  induction srcs as [|s rest IH]; cbn [scan_sources fst]; [done|].
  by destruct (truthy s && has s f && negb (has (JObj r) f)).
Qed.

Lemma fields_loop_record srcs fs (r : obj) (u u' : gmap string (list string)) :
  (foldl (fun st f => scan_sources srcs f st) (r, u) fs).1 =
  (foldl (fun st f => scan_sources srcs f st) (r, u') fs).1.
Proof.
  revert r u u'. induction fs as [|f fs IH]; intros r u u'; cbn [foldl];
    [done|].
  pose proof (scan_sources_record srcs f r u u') as Hr.
  destruct (scan_sources srcs f (r, u)) as [r1 u1].
  destruct (scan_sources srcs f (r, u')) as [r2 u2].
  cbn [fst] in Hr. subst r2. apply IH.
Qed.

Lemma new_eventData_clean e k :
  k ∈ keys (new_eventData e) -> inherited k = false.
Proof.
  cbn. intros [->|[->|[]%elem_of_nil]%elem_of_cons]%elem_of_cons;
    reflexivity.
Qed.

(** One event: the record and the sets after [process_event]. *)
Lemma event_record_get fields e k :
  get (event_record fields e) k =
  if bool_decide (k ∈ fields) && is_undefined (get (new_eventData e) k)
     && negb (inherited k)
  then spec_resolve e k else get (new_eventData e) k.
Proof.
  unfold event_record, process_event. cbn [fst snd].
  apply (fields_loop_get (sources e)). apply new_eventData_clean.
Qed.

Lemma event_record_clean fields e k :
  k ∈ keys (event_record fields e) -> inherited k = false.
Proof.
  unfold event_record, process_event. cbn [fst snd].
  apply fields_loop_clean, new_eventData_clean.
Qed.

Lemma process_event_record fields e uv :
  (process_event fields e uv).1.1 = event_record fields e.
Proof.
  unfold event_record, process_event. cbn [fst snd].
  apply (fields_loop_record (sources e)).
Qed.

Lemma process_event_hasData fields e uv :
  (process_event fields e uv).1.2 = has_data fields e.
Proof.
  unfold has_data. rewrite <- (process_event_record fields e uv). reflexivity.
Qed.

Lemma process_event_uv fields e uv k :
  (process_event fields e uv).2 !! k =
  if bool_decide (k ∈ fields) && defined (assigned e k)
  then Set_add (toStr (assigned e k)) <$> uv !! k else uv !! k.
Proof.
  unfold process_event. cbn [snd].
  rewrite fields_loop_uv by apply new_eventData_clean. cbn [fst snd].
  unfold assigned, spec_resolve, defined.
  destruct (is_undefined (get (new_eventData e) k)), (inherited k);
    cbn [negb andb orb is_undefined];
    rewrite ?andb_true_r, ?andb_false_r; cbn [andb]; reflexivity.
Qed.

(** [hasData]: some requested name reads a defined value in the record,
    its own (resolved from a source, or put there when the record was
    created) or the one every object inherits. *)
Lemma has_data_spec fields e :
  has_data fields e = true <->
  exists f, f ∈ fields /\
    (defined (spec_resolve e f) = true \/
     defined (get (new_eventData e) f) = true \/
     inherited f = true).
Proof.
  unfold has_data. rewrite existsb_exists. split.
  - intros (f & Hin & Hd). exists f. apply list_elem_of_In in Hin.
    split; [done|].
    rewrite has_record in Hd by apply event_record_clean.
    apply orb_true_iff in Hd as [Hd|Hd]; [|by right; right].
    rewrite event_record_get in Hd.
    rewrite bool_decide_eq_true_2 in Hd by done. cbn [andb] in Hd.
    destruct (is_undefined (get (new_eventData e) f) && negb (inherited f));
      [left|right; left]; exact Hd.
  - intros (f & Hin & Hd). exists f. split; [by apply list_elem_of_In|].
    rewrite has_record by apply event_record_clean.
    destruct (inherited f) eqn:Hinh; [by rewrite orb_true_r|].
    rewrite orb_false_r.
    rewrite event_record_get, bool_decide_eq_true_2, Hinh by done.
    cbn [andb negb]. rewrite andb_true_r.
    destruct (is_undefined (get (new_eventData e) f)) eqn:Hu.
    + destruct Hd as [Hd|[Hd|Hd]]; [exact Hd| |done].
      unfold defined in Hd. by rewrite Hu in Hd.
    + unfold defined. by rewrite Hu.
Qed.

(** All events: the records kept and the sets built by the fold. *)
Lemma step_unfold fields acc e :
  step fields acc e =
  (if has_data fields e then acc.1 ++ [event_record fields e] else acc.1,
   (process_event fields e acc.2).2).
Proof.
  unfold step.
  pose proof (process_event_record fields e acc.2) as Hr.
  pose proof (process_event_hasData fields e acc.2) as Hh.
  destruct (process_event fields e acc.2) as [[r h] uv].
  cbn [fst snd] in *. by subst.
Qed.

Lemma steps_records fields events acc :
  (foldl (step fields) acc events).1 =
  acc.1 ++ (event_record fields <$> List.filter (has_data fields) events).
Proof.
  revert acc. induction events as [|e es IH]; intros acc; cbn [foldl].
  - by rewrite app_nil_r.
  - rewrite IH, step_unfold. cbn [fst List.filter].
    destruct (has_data fields e); [|done].
    by rewrite <- app_assoc.
Qed.

Lemma assigned_strings_cons e es k :
  assigned_strings (e :: es) k =
  (if defined (assigned e k) then [toStr (assigned e k)] else [])
  ++ assigned_strings es k.
Proof.
  unfold assigned_strings. cbn [fmap list_fmap List.filter].
  by destruct (defined (assigned e k)).
Qed.

Lemma steps_uv fields events acc k :
  (foldl (step fields) acc events).2 !! k =
  if bool_decide (k ∈ fields)
  then (fun s => foldl (fun s x => Set_add x s) s (assigned_strings events k))
         <$> acc.2 !! k
  else acc.2 !! k.
Proof.
  revert acc. induction events as [|e es IH]; intros acc; cbn [foldl].
  - case_bool_decide; [|done]. by destruct (acc.2 !! k).
  - rewrite IH, step_unfold. cbn [snd].
    rewrite process_event_uv, assigned_strings_cons.
    case_bool_decide; [|done]. cbn [andb].
    destruct (defined (assigned e k)); cbn [app]; [|done].
    by destruct (acc.2 !! k).
Qed.

(** Every requested name gets its empty set, [__proto__] excepted. *)
Lemma init_unique_lookup fields k :
  init_unique fields !! k =
  if bool_decide (k ∈ fields) && negb (String.eqb k "__proto__")
  then Some [] else None.
Proof.
  unfold init_unique.
  assert (Hgen : forall m : gmap string (list string),
             foldl (fun uv field =>
                      if decide (field = "__proto__") then uv
                      else <[field := []]> uv) m fields !! k =
             if bool_decide (k ∈ fields) && negb (String.eqb k "__proto__")
             then Some [] else m !! k).
  { induction fields as [|f fs IH]; intros m; cbn [foldl]; [done|].
    rewrite IH.
    destruct (decide (k = f)) as [->|Hne].
    - rewrite (bool_decide_eq_true_2 (f ∈ f :: fs)) by apply list_elem_of_here.
      cbn [andb]. destruct (decide (f = "__proto__")) as [->|Hf].
      + rewrite String.eqb_refl. cbn [negb]. by rewrite andb_false_r.
      + rewrite (proj2 (String.eqb_neq f "__proto__")) by done. cbn [negb].
        rewrite lookup_insert_eq, andb_true_r.
        by destruct (bool_decide (f ∈ fs)).
    - assert (bool_decide (k ∈ f :: fs) = bool_decide (k ∈ fs)) as ->.
      { apply bool_decide_ext. rewrite elem_of_cons. tauto. }
      destruct (bool_decide (k ∈ fs) && negb (String.eqb k "__proto__"));
        [done|].
      destruct (decide (f = "__proto__")); [done|].
      by rewrite lookup_insert_ne. }
  by rewrite Hgen, lookup_empty.
Qed.

(** [Set] keeps its members distinct and forgets nothing. *)
Lemma Set_add_elem x y s : y ∈ Set_add x s <-> y = x \/ y ∈ s.
Proof.
  unfold Set_add. destruct (decide (x ∈ s)) as [Hin|Hnin].
  - split; [auto|]. intros [->|?]; done.
  - rewrite elem_of_app, list_elem_of_singleton. tauto.
Qed.

Lemma Set_add_NoDup x s : NoDup s -> NoDup (Set_add x s).
Proof.
  intros Hs. unfold Set_add. destruct (decide (x ∈ s)) as [Hin|Hnin]; [done|].
  apply NoDup_app. split; [done|]. split.
  - intros y Hy Hy'. apply list_elem_of_singleton in Hy'. by subst.
  - apply NoDup_singleton.
Qed.

Lemma Set_add_all_elem xs s y :
  y ∈ foldl (fun s x => Set_add x s) s xs <-> y ∈ s \/ y ∈ xs.
Proof.
  revert s. induction xs as [|x xs IH]; intros s; cbn [foldl].
  - rewrite elem_of_nil. tauto.
  - rewrite IH, Set_add_elem, elem_of_cons. tauto.
Qed.

Lemma Set_add_all_NoDup xs s :
  NoDup s -> NoDup (foldl (fun s x => Set_add x s) s xs).
Proof.
  revert s. induction xs as [|x xs IH]; intros s Hs; cbn [foldl]; [done|].
  by apply IH, Set_add_NoDup.
Qed.


Lemma Array_sort_sorted l : StronglySorted String.le (Array_sort l).
Proof. apply (StronglySorted_merge_sort String.le); apply _. Qed.

Lemma Array_sort_perm l : Array_sort l ≡ₚ l.
Proof. apply merge_sort_Permutation. Qed.

Lemma Array_sort_unique l1 l2 :
  NoDup l1 -> NoDup l2 -> (forall x, x ∈ l1 <-> x ∈ l2) ->
  Array_sort l1 = Array_sort l2.
Proof.
  intros H1 H2 Heq.
  apply (StronglySorted_unique String.le); try apply Array_sort_sorted.
  rewrite !Array_sort_perm. by apply NoDup_Permutation.
Qed.

Lemma unique_values_lookup events fields f :
  unique_values (extract events fields) !! f =
  if bool_decide (f ∈ fields) && negb (String.eqb f "__proto__")
  then Some (Array_sort (remove_dups (assigned_strings events f)))
  else None.
Proof.
  unfold extract. cbn [unique_values].
  rewrite lookup_fmap, steps_uv. cbn [snd].
  rewrite init_unique_lookup. case_bool_decide; cbn [andb]; [|done].
  destruct (String.eqb f "__proto__"); cbn [negb]; [done|].
  cbn [fmap option_fmap option_map]. f_equal.
  apply Array_sort_unique.
  - apply Set_add_all_NoDup, NoDup_nil_2.
  - apply NoDup_remove_dups.
  - intros x. rewrite Set_add_all_elem, elem_of_remove_dups, elem_of_nil. tauto.
Qed.

Lemma extracted_data_records events fields :
  extracted_data (extract events fields) =
  event_record fields <$> List.filter (has_data fields) events.
Proof. unfold extract. cbn [extracted_data]. by rewrite steps_records. Qed.

Lemma events_with_data_count events fields :
  events_with_data (extract events fields) =
  length (List.filter (has_data fields) events).
Proof.
  unfold extract. cbn [events_with_data].
  rewrite steps_records. cbn [fst app]. apply length_fmap.
Qed.









(** The record of an event has data exactly when some requested name
    reads a defined value in it: from a source, from its creation, or
    from [Object.prototype]. *)
Lemma events_with_data_total_iff events fields :
  length (List.filter (has_data fields) events) = length events <->
  forall e, e ∈ events ->
    exists f, f ∈ fields /\
      (defined (spec_resolve e f) = true \/
       defined (get (new_eventData e) f) = true \/
       inherited f = true).
Proof.
  split.
  - intros Hlen e He. apply has_data_spec.
    apply filter_length_forallb in Hlen.
    rewrite forallb_forall in Hlen. by apply Hlen, list_elem_of_In.
  - intros Hall. rewrite forallb_filter_id; [done|].
    apply forallb_forall. intros e He. apply has_data_spec, Hall.
    by apply list_elem_of_In.
Qed.




(** C10.  A requested field named [event_id] (resp. [timestamp]), on events
    that all have a defined [id] (resp. [dateCreated]): the lookup assigns
    nothing to it, the record keeps the event's own value, the field's set
    of unique values stays empty, and every event counts as having data. *)
Theorem prepopulated_field_never_resolves events fields name key :
  (name, key) ∈ [("event_id", "id"); ("timestamp", "dateCreated")] ->
  name ∈ fields ->
  (forall e, e ∈ events -> defined (get e key) = true) ->
  unique_values (extract events fields) !! name = Some [] /\
  events_with_data (extract events fields)
    = total_events (extract events fields) /\
  (forall e, e ∈ events ->
     (forall st, get st.1 name = get e key ->
                 scan_sources (sources e) name st = st) /\
     assigned e name = JUndefined /\
     get (event_record fields e) name = get e key).
Proof.
  intros Hname Hin Hdef.
  assert (Hnew : forall e, get (new_eventData e) name = get e key).
  { intros e. unfold new_eventData.
    apply elem_of_cons in Hname as [Hname|Hname].
    - by inversion Hname.
    - apply list_elem_of_singleton in Hname. by inversion Hname. }
  assert (Hproto : String.eqb name "__proto__" = false).
  { apply elem_of_cons in Hname as [Hname|Hname].
    - by inversion Hname.
    - apply list_elem_of_singleton in Hname. by inversion Hname. }
  assert (Hass : forall e, e ∈ events -> assigned e name = JUndefined).
  { intros e He. unfold assigned. by rewrite Hnew, Hdef. }
  split; [|split].
  - rewrite unique_values_lookup, bool_decide_eq_true_2, Hproto by done.
    cbn [negb andb].
    assert (assigned_strings events name = []) as ->; [|done].
    clear Hdef. induction events as [|e es IH]; [done|].
    rewrite assigned_strings_cons, Hass by apply list_elem_of_here.
    cbn. apply IH. intros e' He'. by apply Hass, list_elem_of_further.
  - rewrite events_with_data_count. cbn [total_events extract].
    apply events_with_data_total_iff. intros e He. exists name.
    split; [done|]. right. left. rewrite Hnew. by apply Hdef.
  - intros e He. split; [|split].
    + intros st Hst.
      assert (Hhas : has (JObj st.1) name = true).
      { unfold has. cbn [own prop].
        specialize (Hdef e He). rewrite <- Hst in Hdef.
        case_bool_decide as Hk; [done|].
        by rewrite get_not_own in Hdef. }
      generalize (sources e). intros srcs.
      induction srcs as [|s rest IH]; cbn [scan_sources]; [done|].
      by rewrite Hhas, andb_false_r.
    + by apply Hass.
    + rewrite event_record_get, Hnew.
      specialize (Hdef e He). unfold defined in Hdef.
      apply negb_true_iff in Hdef. by rewrite Hdef, !andb_false_r.
Qed.

Lemma prepopulated_field_never_resolves_witness :
  unique_values (extract [ev_shadowed_id] ["event_id"]) !! "event_id"
    = Some [] /\
  events_with_data (extract [ev_shadowed_id] ["event_id"]) = 1.
Proof.
  destruct (prepopulated_field_never_resolves [ev_shadowed_id] ["event_id"]
              "event_id" "id") as (Hu & Hn & _).
  - apply list_elem_of_here.
  - apply list_elem_of_here.
  - intros e He. apply list_elem_of_singleton in He. by subst.
  - split; [exact Hu|exact Hn].
Defined.

End ExtractProps.

(** ** Rendering primitives *)

Lemma string_app_assoc (s1 s2 s3 : string) :
  (s1 +:+ s2) +:+ s3 = s1 +:+ (s2 +:+ s3).
Proof.
  induction s1 as [|c s1 IH]; [done|].
  change (String c ((s1 +:+ s2) +:+ s3) = String c (s1 +:+ s2 +:+ s3)).
  by rewrite IH.
Qed.

Lemma string_app_nil_r (s : string) : s +:+ "" = s.
Proof.
  induction s as [|c s IH]; [done|].
  change (String c (s +:+ "") = String c s). by rewrite IH.
Qed.

(** A loop that appends one piece per element appends their concatenation. *)
Lemma foldl_append {A} (f : A -> string) (xs : list A) (init : string) :
  foldl (fun out x => out +:+ f x) init xs = init +:+ concat_all (map f xs).
Proof.
  revert init. induction xs as [|x xs IH]; intros init; simpl.
  - by rewrite string_app_nil_r.
  - by rewrite IH, string_app_assoc.
Qed.

Lemma separator_cells (headers : list string) :
  map (fun _ : string => "----") headers = replicate (length headers) "----".
Proof. induction headers as [|h hs IH]; simpl; [done|]. by rewrite IH. Qed.

(** C6 (as amended).  In markdown mode the table is the header row, a
    separator row with one cell of dashes per column, and the data rows,
    all pipe-delimited.  In plain mode it is the data rows only, as
    pipe-joined cells: the headers are not printed, and no separator row
    either. *)
Theorem createTable_shape (v : ViewType) (headers : list string)
    (rows : list (list string)) :
  createTable {| format := markdown; view := v |} headers rows =
    "| " +:+ join " | " headers +:+ " |" +:+ nl
    +:+ "|" +:+ join "|" (replicate (length headers) "----") +:+ "|" +:+ nl
    +:+ concat_all (map (fun row => "| " +:+ join " | " row +:+ " |" +:+ nl)
                        rows)
    +:+ nl /\
  createTable {| format := plain; view := v |} headers rows =
    concat_all (map (fun row => join " | " row +:+ nl) rows) +:+ nl /\
  (forall headers',
     createTable {| format := plain; view := v |} headers' rows =
     createTable {| format := plain; view := v |} headers rows).
Proof.
  unfold createTable. cbn [isMarkdown format]. split; [|split].
  - rewrite (foldl_append (fun row => "| " +:+ join " | " row +:+ " |" +:+ nl)).
    rewrite separator_cells. cbn [String.app]. by rewrite ?string_app_assoc.
  - by rewrite (foldl_append (fun row => join " | " row +:+ nl)).
  - done.
Qed.

(** C6 as stated fails in plain mode: the output is not the header row
    followed by the data rows, it does not even start with the header
    row. *)
Lemma createTable_plain_counterexample :
  createTable {| format := plain; view := detailed |}
              ["A"; "B"] [["1"; "2"]]
    <> spec_plain_table ["A"; "B"] [["1"; "2"]] /\
  String.prefix (join " | " ["A"; "B"])
    (createTable {| format := plain; view := detailed |}
                 ["A"; "B"] [["1"; "2"]]) = false.
Proof. split; [vm_compute; discriminate|reflexivity]. Qed.

(** ** Empty collections *)

(** C2 (as amended).  An empty issue list and an empty event list render,
    in every mode and view, as the header followed by the fixed message,
    and only the header primitive is invoked.  The project renderer has no
    such case: an empty project list goes through the ordinary path, which
    builds the (empty) table in detailed markdown and the (empty) list in
    summary view, and ends with a total of 0. *)
Theorem empty_collections (toISOString : Z -> string) (o : FormatOptions)
    (projectSlug issueTitle : string) :
  IssueFormatter.formatIssueList toISOString o [] projectSlug =
    (createHeader o ("Issues for Project: " +:+ projectSlug) 1
     +:+ "No issues found for this project." +:+ nl, [PHeader]) /\
  IssueFormatter.formatEventList o [] issueTitle =
    (createHeader o ("Events for " +:+ issueTitle) 1
     +:+ "No events found for this issue." +:+ nl, [PHeader]) /\
  builds_no_table_or_list
    (IssueFormatter.formatIssueList toISOString o [] projectSlug) /\
  builds_no_table_or_list (IssueFormatter.formatEventList o [] issueTitle) /\
  ProjectFormatter.formatData o [] =
    (if isDetailed o
     then
       (createHeader o "Sentry Projects" 1
        +:+ (if isMarkdown o
             then createTable o ["ID"; "Name"; "Slug"; "Platform"; "Teams";
                                 "Environments"; "Features"] []
             else "")
        +:+ createHeader o "Summary" 2 +:+ "Total Projects: 0" +:+ nl,
        if isMarkdown o then [PHeader; PTable; PHeader]
        else [PHeader; PHeader])
     else
       (createHeader o "Sentry Projects" 1 +:+ createList o [] false
        +:+ "Total Projects: 0", [PHeader; PList])).
Proof.
  split; [reflexivity|]. split; [reflexivity|].
  split; [|split].
  - split; cbn; rewrite list_elem_of_singleton; discriminate.
  - split; cbn; rewrite list_elem_of_singleton; discriminate.
  - destruct o as [[] []]; reflexivity.
Qed.

(** C2 as stated fails for projects: rendering the empty project list
    builds a table (detailed markdown) or a list (summary). *)
Lemma empty_projects_counterexample :
  ~ builds_no_table_or_list
      (ProjectFormatter.formatData
         {| format := markdown; view := detailed |} []) /\
  ~ builds_no_table_or_list
      (ProjectFormatter.formatData
         {| format := plain; view := summary |} []).
Proof.
  split; intros [Ht Hl]; [apply Ht|apply Hl]; vm_compute;
    repeat constructor.
Qed.

(** ** Single event: environment, additional data, stack trace *)

Section SingleEventProps.
Import IssueFormatter.

Variable JSON_stringify : obj -> string.
Variable trim : string -> string.

(** *** Environment *)

(** Whatever the section prints below its header comes from whitelisted
    tags only. *)
Lemma environment_only_whitelisted o event tags :
  Event.tags event = Some tags ->
  (0 < length (List.filter isImportant tags))%nat ->
  output (environmentSection o event) =
    createHeader o "Environment" 2
    +:+ (if isMarkdown o
         then createTable o ["Key"; "Value"]
                (map (fun tag => [Tag.key tag; Tag.value tag])
                     (List.filter isImportant tags))
         else createList o
                (map (fun tag => Tag.key tag +:+ ": " +:+ Tag.value tag)
                     (List.filter isImportant tags)) false) /\
  Forall (fun tag => Tag.key tag ∈ importantTags)
         (List.filter isImportant tags).
Proof.
  intros Htags Hlen. split.
  - unfold environmentSection. rewrite Htags.
    destruct tags as [|t ts]; [simpl in Hlen; lia|].
    apply Nat.ltb_lt in Hlen. rewrite Hlen.
    by destruct (isMarkdown o).
  - apply Forall_forall. intros tag Hin.
    apply list_elem_of_In, filter_In in Hin as [_ Hin].
    by apply bool_decide_eq_true in Hin.
Qed.

(** No tags at all: the section is omitted. *)
Lemma environment_omitted_without_tags o event :
  Event.tags event = None \/ Event.tags event = Some [] ->
  environmentSection o event = ("", []).
Proof. intros [H|H]; unfold environmentSection; by rewrite H. Qed.

(** Tags, but none on the whitelist: the header is printed all the same,
    with nothing below it. *)
Lemma environment_header_without_match o event tags :
  Event.tags event = Some tags -> tags <> [] ->
  List.filter isImportant tags = [] ->
  environmentSection o event = (createHeader o "Environment" 2, [PHeader]).
Proof.
  intros Htags Hne Hnone. unfold environmentSection. rewrite Htags.
  destruct tags as [|t ts]; [done|]. rewrite Hnone. reflexivity.
Qed.

(** C3, at an event whose only tag is [browser]: the rendering ends with
    an "Environment" header that has nothing under it, although no tag of
    the event is on the whitelist. *)
Theorem environment_header_on_unmatched_tag :
  List.filter isImportant
    [{| Tag.key := "browser"; Tag.value := "Chrome" |}] = [] /\
  formatSingleEvent JSON_stringify trim
    {| format := markdown; view := detailed |} ev_browser_tag "e1" =
  ("# Event Details: e1" +:+ nl +:+ nl
   +:+ "## Error Overview" +:+ nl +:+ nl
   +:+ "- **Title**: N/A" +:+ nl
   +:+ "- **Platform**: N/A" +:+ nl
   +:+ "- **Date**: undefined" +:+ nl
   +:+ "- **Culprit**: N/A" +:+ nl +:+ nl
   +:+ "## Environment" +:+ nl +:+ nl,
   [PHeader; PHeader; PBold; PBold; PBold; PBold; PList; PHeader]).
Proof. split; reflexivity. Qed.

(** *** Additional data *)




(** With such a frame, its variables are merged in whatever the primary
    three sources hold, and last, so that they win on a collision. *)
Lemma additionalData_with_frame_vars event frames frame vars :
  stacktraceFrames event = Some frames ->
  frameWithVars frames = Some frame ->
  Frame.vars frame = Some vars ->
  additionalData event =
    assignFrameVars
      (assignNonEmpty
         (assignNonEmpty (assignNonEmpty [] (Event.context event))
                         (Event.contexts event))
         (Event.extra event))
      vars.
Proof.
  intros Hf Hw Hv. unfold additionalData. by rewrite Hf, Hw, Hv.
Qed.

(** The section is printed exactly when the map has a key. *)
Lemma additionalDataSection_omitted o event :
  additionalData event = [] ->
  additionalDataSection JSON_stringify o event = ("", []).
Proof. intros H. unfold additionalDataSection. by rewrite H. Qed.

(** C1, at an event with [context = {roomId: "42"}] and a stack frame whose
    variables hold [context = {roomId: "7", local: true}]: the frame
    variables are merged in although the context is informative, and they
    overwrite it. *)
Theorem additionalData_frame_vars_override :
  additionalData ev_context_and_vars
    = [("roomId", JStr "7"); ("local", JBool true)] /\
  spec_additionalData ev_context_and_vars = [("roomId", JStr "42")].
Proof. split; reflexivity. Qed.

(** *** Stack trace *)

Lemma slice_last_suffix {A} (n : nat) (xs : list A) :
  exists earlier,
    xs = earlier ++ slice_last n xs /\
    length (slice_last n xs) = n `min` length xs.
Proof.
  exists (take (length xs - n) xs). unfold slice_last. split.
  - by rewrite take_drop.
  - rewrite length_drop. lia.
Qed.

Lemma slice_last_elem {A} (n : nat) (xs : list A) (x : A) :
  x ∈ slice_last n xs -> x ∈ xs.
Proof.
  destruct (slice_last_suffix n xs) as (earlier & Heq & _).
  intros Hin. rewrite Heq. apply elem_of_app. by right.
Qed.

(** Distinct objects: [indexOf] finds a frame where it stands. *)
Lemma indexOf_position frames i frame :
  NoDup (Frame.oid <$> frames) ->
  frames !! i = Some frame ->
  indexOf frames frame = Z.of_nat i.
Proof.
  intros Hnd Hi. unfold indexOf.
  assert (list_find (fun f => Frame.oid f = Frame.oid frame) frames
          = Some (i, frame)) as ->; [|done].
  apply list_find_Some. split; [done|]. split; [done|].
  intros j y Hj Hlt Heq.
  assert (j = i) as ->; [|lia].
  apply (NoDup_lookup (Frame.oid <$> frames) j i (Frame.oid frame) Hnd).
  - by rewrite list_lookup_fmap, Hj, <- Heq.
  - by rewrite list_lookup_fmap, Hi.
Qed.

Lemma framesToShow_elem frames frame :
  frame ∈ framesToShow frames -> frame ∈ frames.
Proof.
  unfold framesToShow. destruct (0 <? _)%nat; intros Hin.
  - apply slice_last_elem in Hin. unfold appFrames in Hin.
    by apply list_elem_of_In, filter_In in Hin as [Hin%list_elem_of_In _].
  - by apply slice_last_elem in Hin.
Qed.

(** The section lists the frames selected, in order, each through
    [formatFrame], and closes with the note when frames were left out. *)
Lemma stackTraceSection_shows o event frames :
  stacktraceFrames event = Some frames ->
  output (stackTraceSection trim o event) =
    createHeader o "Stack Trace" 2
    +:+ concat_all (map (formatFrame trim frames) (framesToShow frames))
    +:+ (if (length (appFrames frames) <? length frames)%nat
         then "*Showing " +:+ pretty (length (framesToShow frames))
              +:+ " most relevant frames (" +:+ pretty (length frames)
              +:+ " total)*" +:+ nl +:+ nl
         else "").
Proof.
  intros Hf. unfold stackTraceSection. rewrite Hf.
  cbn [output bind this.createHeader ret fst snd].
  rewrite (foldl_append (formatFrame trim frames)).
  destruct (length (appFrames frames) <? length frames)%nat.
  - by rewrite string_app_assoc.
  - by rewrite string_app_nil_r.
Qed.

(** C4.  The stack trace of a single event, for the pairwise distinct
    frame objects of a parsed payload: the section is the header, then
    the frames shown, in order, then the closing note, and
    [formatSingleEvent] prints it right before the user block.  With an
    in-app frame in the list, the frames shown are the last 5 in-app
    frames (all of them when there are fewer); with none, the last 10
    frames (all of them when there are fewer).  Each frame shown is
    labelled with its 1-based position in the full list. *)
Theorem frame_selection o event eventId frames :
  stacktraceFrames event = Some frames ->
  NoDup (Frame.oid <$> frames) ->
  output (stackTraceSection trim o event) =
    createHeader o "Stack Trace" 2
    +:+ concat_all (map (formatFrame trim frames) (framesToShow frames))
    +:+ (if (length (appFrames frames) <? length frames)%nat
         then "*Showing " +:+ pretty (length (framesToShow frames))
              +:+ " most relevant frames (" +:+ pretty (length frames)
              +:+ " total)*" +:+ nl +:+ nl
         else "") /\
  (exists before,
     output (formatSingleEvent JSON_stringify trim o event eventId) =
       before +:+ output (stackTraceSection trim o event)
       +:+ output (userSection o event)) /\
  ((exists f, f ∈ frames /\ Frame.inApp f = true) ->
     framesToShow frames = slice_last 5 (List.filter Frame.inApp frames) /\
     Forall (fun f => Frame.inApp f = true) (framesToShow frames) /\
     exists earlier,
       List.filter Frame.inApp frames = earlier ++ framesToShow frames /\
       length (framesToShow frames)
         = 5 `min` length (List.filter Frame.inApp frames)) /\
  ((forall f, f ∈ frames -> Frame.inApp f = false) ->
     framesToShow frames = slice_last 10 frames /\
     exists earlier,
       frames = earlier ++ framesToShow frames /\
       length (framesToShow frames) = 10 `min` length frames) /\
  (forall frame, frame ∈ framesToShow frames ->
     exists i rest,
       frames !! i = Some frame /\
       frameNum frames frame = (Z.of_nat i + 1)%Z /\
       formatFrame trim frames frame
         = "**Frame " +:+ pretty (Z.of_nat i + 1)%Z +:+ "**: `" +:+ rest).
Proof.
  intros Hframes Hnd.
  split; [by apply stackTraceSection_shows|]. split; [|split; [|split]].
  - unfold formatSingleEvent, output, bind, ret. cbn [fst snd].
    rewrite <- 4 string_app_assoc. by eexists.
  - intros (f & Hf & Happ).
    assert (Hshown : framesToShow frames
                     = slice_last 5 (List.filter Frame.inApp frames)).
    { unfold framesToShow, appFrames.
      assert (Hin : f ∈ List.filter Frame.inApp frames).
      { apply list_elem_of_In, filter_In. by split; [apply list_elem_of_In|]. }
      destruct (List.filter Frame.inApp frames); [by apply elem_of_nil in Hin|].
      done. }
    split; [done|]. split.
    + apply Forall_forall. intros g Hg. rewrite Hshown in Hg.
      apply slice_last_elem in Hg.
      by apply list_elem_of_In, filter_In in Hg as [_ Hg].
    + rewrite Hshown. apply slice_last_suffix.
  - intros Hnone.
    assert (Hshown : framesToShow frames = slice_last 10 frames).
    { unfold framesToShow, appFrames.
      destruct (List.filter Frame.inApp frames) as [|g gs] eqn:Hfilter; [done|].
      assert (Hg : g ∈ List.filter Frame.inApp frames).
      { rewrite Hfilter. apply list_elem_of_here. }
      apply list_elem_of_In, filter_In in Hg as [Hg Happ].
      apply list_elem_of_In, Hnone in Hg. congruence. }
    split; [done|]. rewrite Hshown. apply slice_last_suffix.
  - intros frame Hin. apply framesToShow_elem in Hin.
    apply list_elem_of_lookup in Hin as [i Hi]. exists i.
    unfold formatFrame, frameNum. rewrite (indexOf_position frames i) by done.
    eexists. split; [done|]. split; reflexivity.
Qed.

End SingleEventProps.

Lemma frame_selection_witness :
  IssueFormatter.stacktraceFrames Samples.ev_seven_frames
    = Some Samples.seven_frames /\
  NoDup (IssueFormatter.Frame.oid <$> Samples.seven_frames) /\
  IssueFormatter.framesToShow Samples.seven_frames
    = [IssueFormatter.frame_at 2 true None; IssueFormatter.frame_at 3 true None;
       IssueFormatter.frame_at 4 true None; IssueFormatter.frame_at 5 true None;
       IssueFormatter.frame_at 6 true None] /\
  output (IssueFormatter.stackTraceSection (fun s => s)
            {| format := markdown; view := summary |}
            Samples.ev_seven_frames) =
  "## Stack Trace" +:+ nl +:+ nl
  +:+ "**Frame 3**: `app.py:10`" +:+ nl
  +:+ "- Function: `handler`" +:+ nl +:+ nl
  +:+ "**Frame 4**: `app.py:10`" +:+ nl
  +:+ "- Function: `handler`" +:+ nl +:+ nl
  +:+ "**Frame 5**: `app.py:10`" +:+ nl
  +:+ "- Function: `handler`" +:+ nl +:+ nl
  +:+ "**Frame 6**: `app.py:10`" +:+ nl
  +:+ "- Function: `handler`" +:+ nl +:+ nl
  +:+ "**Frame 7**: `app.py:10`" +:+ nl
  +:+ "- Function: `handler`" +:+ nl +:+ nl
  +:+ "*Showing 5 most relevant frames (7 total)*" +:+ nl +:+ nl.
Proof.
  assert (Hnd : NoDup (IssueFormatter.Frame.oid <$> Samples.seven_frames)).
  { apply (bool_decide_unpack _). vm_compute. exact I. }
  split; [reflexivity|]. split; [exact Hnd|].
  destruct (frame_selection (fun _ => "") (fun s => s)
              {| format := markdown; view := summary |}
              Samples.ev_seven_frames "e1" Samples.seven_frames
              eq_refl Hnd)
    as (Hout & _ & Happ & _ & _).
  destruct Happ as (Hshown & _).
  - exists (IssueFormatter.frame_at 0 true None).
    split; [apply list_elem_of_here|reflexivity].
  - split; [rewrite Hshown; reflexivity|]. rewrite Hout. reflexivity.
Defined.

(** ** Tool handlers: upstream failures *)


Section ServerProps.
Import Server.

Variable network : list Request -> Request -> FetchOutcome.
Variable URL_pathname : string -> Outcome string.
Variable asProjects : value -> Outcome (list ProjectFormatter.SentryProject).
Variable asIssues : value -> Outcome (list IssueFormatter.Issue.t).
Variable asEvents : value -> Outcome (list IssueFormatter.Event.t).
Variable asEvent : value -> Outcome IssueFormatter.Event.t.
Variable asObjects : value -> Outcome (list obj).
Variable formatIssueDetails : FormatOptions -> value -> Outcome string.
Variable toISOString : Z -> string.
Variable JSON_stringify : obj -> string.
Variable JSON_stringify_result : Extract.ExtractionResult -> string.
Variable trim : string -> string.
Variable baseUrl : string.

Local Abbreviation reports := (reports_failures network).
Local Abbreviation the_body :=
  (tool_body network URL_pathname asProjects asIssues asEvents asEvent
     asObjects formatIssueDetails toISOString JSON_stringify
     JSON_stringify_result trim baseUrl).
Local Abbreviation the_handler :=
  (handler network URL_pathname asProjects asIssues asEvents asEvent
     asObjects formatIssueDetails toISOString JSON_stringify
     JSON_stringify_result trim baseUrl).









(** The handler itself never throws, and sends what its body sends. *)
Lemma handler_unfold c log :
  the_handler c log =
  (Return match (the_body c log).1 with
          | Return response => response
          | Throw error => handleApiError error (tool_name c)
          end,
   (the_body c log).2).
Proof.
  unfold handler, try_catch, aret. by destruct (the_body c log) as [[r|e] l].
Qed.







End ServerProps.

(** ** The scenarios of the specification *)

Example extract_scenario :
  let r := Extract.extract [Extract.ev_room_contexts; Extract.ev_room_extra]
                           ["roomId"] in
  Extract.unique_values r !! "roomId" = Some ["42"] /\
  Extract.events_with_data r = 2%nat /\ Extract.total_events r = 2%nat.
Proof. repeat split; reflexivity. Qed.

Example demo_project_summary :
  output (ProjectFormatter.formatData
            {| format := markdown; view := summary |}
            [ProjectFormatter.demo_project]) =
  "# Sentry Projects" +:+ nl +:+ nl
  +:+ "- **Demo** (demo): ID 1" +:+ nl +:+ nl
  +:+ "Total Projects: 1".
Proof. reflexivity. Qed.

(** C9, run: with the API answering 503, [list_projects] sends one request
    and answers with the error response. *)
Lemma list_projects_unavailable :
  Server.handler Server.network_down
    (fun _ => Server.Return "") (fun _ => Server.Return [])
    (fun _ => Server.Return []) (fun _ => Server.Return [])
    (fun _ => Server.Return IssueFormatter.no_event)
    (fun _ => Server.Return []) (fun _ _ => Server.Return "")
    (fun _ => "") (fun _ => "") (fun _ => "") (fun s => s)
    "https://sentry.io"
    (Server.list_projects "acme" detailed markdown) [] =
  (Server.Return
     {| content :=
          [{| type := "text";
              text := "Error in list_projects: API request failed: "
                      +:+ "503 Service Unavailable - down" |}];
        isError := true |},
   [{| Server.method := "GET";
       Server.url := "https://sentry.io/api/0/organizations/acme/projects/" |}]).
Proof. reflexivity. Qed.

(* ===================================================================== *)
(** * Further properties of the code *)
(* ===================================================================== *)

(** ** The context extractor *)

Section ExtractMore.
Import Extract.

Lemma keys_set (o : obj) (k : string) (v : value) :
  keys (set o k v) = if bool_decide (k ∈ keys o) then keys o else keys o ++ [k].
Proof.
  induction o as [|[k0 v0] o IH]; [done|]. cbn [set keys map fst].
  destruct (decide (k = k0)) as [->|Hne].
  - by rewrite bool_decide_eq_true_2 by apply list_elem_of_here.
  - cbn [map fst]. fold (keys (set o k v)). fold (keys o). rewrite IH.
    assert (bool_decide (k ∈ k0 :: keys o) = bool_decide (k ∈ keys o)) as ->.
    { apply bool_decide_ext. rewrite elem_of_cons. tauto. }
    by case_bool_decide.
Qed.

(** Assigning a property keeps the names of an object distinct. *)
Lemma set_NoDup (o : obj) (k : string) (v : value) :
  NoDup (keys o) -> NoDup (keys (set o k v)).
Proof.
  intros Hnd. rewrite keys_set. case_bool_decide as Hin; [done|].
  apply NoDup_app. split; [done|]. split; [|apply NoDup_singleton].
  intros x Hx Hx'. apply list_elem_of_singleton in Hx'. by subst.
Qed.

(** The names the field loop adds to a record: requested ones, each once,
    each with a defined value. *)
Lemma fields_loop_keys srcs fs (st : obj * gmap string (list string)) :
  NoDup (keys st.1) ->
  (forall k, k ∈ keys st.1 -> inherited k = false) ->
  exists l,
    keys (foldl (fun st f => scan_sources srcs f st) st fs).1
      = keys st.1 ++ l /\
    NoDup (keys st.1 ++ l) /\
    forall k, k ∈ l ->
      k ∈ fs /\
      defined (get (foldl (fun st f => scan_sources srcs f st) st fs).1 k)
        = true.
Proof.
  revert st. induction fs as [|f fs IH]; intros st Hnd Hclean; cbn [foldl].
  - exists []. rewrite app_nil_r. split; [done|]. split; [done|].
    intros k Hk. by apply elem_of_nil in Hk.
  - pose proof (scan_sources_clean srcs f st Hclean) as Hclean'.
    revert Hclean'. rewrite scan_sources_spec by done.
    destruct (is_undefined (get st.1 f) && negb (inherited f)
              && defined (first_defined_in srcs f)) eqn:Hfire;
      intros Hclean'.
    + apply andb_true_iff in Hfire as [_ Hd].
      destruct (IH (set st.1 f (first_defined_in srcs f),
                    alter (Set_add (toStr (first_defined_in srcs f))) f st.2))
        as (l & Hkeys & Hnd' & Hsub); [by apply set_NoDup|done|].
      cbn [fst] in *. rewrite keys_set in Hkeys, Hnd'.
      case_bool_decide.
      * exists l. split; [done|]. split; [done|].
        intros k Hk. destruct (Hsub k Hk) as [Hk' Hv].
        split; [by apply list_elem_of_further|done].
      * exists (f :: l). rewrite <- app_assoc in Hkeys, Hnd'.
        split; [done|]. split; [done|].
        intros k [->|Hk]%elem_of_cons.
        -- split; [apply list_elem_of_here|].
           rewrite fields_loop_get by done. cbn [fst].
           rewrite get_set, decide_True by done.
           unfold defined in Hd. apply negb_true_iff in Hd.
           destruct (bool_decide (f ∈ fs)
                     && is_undefined (first_defined_in srcs f)
                     && negb (inherited f));
             unfold defined; by rewrite Hd.
        -- destruct (Hsub k Hk) as [Hk' Hv].
           split; [by apply list_elem_of_further|done].
    + destruct (IH st Hnd Hclean) as (l & Hkeys & Hnd' & Hsub).
      exists l. split; [done|]. split; [done|].
      intros k Hk. destruct (Hsub k Hk) as [Hk' Hv].
      split; [by apply list_elem_of_further|done].
Qed.

(** X1.  On a regular run, every record of [extracted_data] has the names
    [event_id] and [timestamp] and, besides them, requested names only,
    none of [Object.prototype], each with a defined value; no name occurs
    twice; and the record reads a defined value under at least one
    requested name. *)
Theorem extracted_record_shape events fields r :
  regular events fields = true ->
  r ∈ extracted_data (extract events fields) ->
  exists requested,
    keys r ≡ₚ ["event_id"; "timestamp"] ++ requested /\
    NoDup (keys r) /\
    (forall k, k ∈ requested ->
       k ∈ fields /\ inherited k = false /\ defined (get r k) = true) /\
    (exists f, f ∈ fields /\ has (JObj r) f = true).
Proof.
  intros _. rewrite extracted_data_records. intros Hr.
  apply list_elem_of_fmap in Hr as (e & -> & He).
  apply list_elem_of_In, filter_In in He as [_ Hdata].
  destruct (fields_loop_keys (sources e) fields
              (new_eventData e, init_unique fields))
    as (l & Hkeys & Hnd & Hsub).
  { cbn. apply (bool_decide_unpack _). vm_compute. exact I. }
  { apply new_eventData_clean. }
  exists l. pose proof (event_record_clean fields e) as Hclean.
  unfold event_record, process_event in *. cbn [fst snd] in *.
  rewrite Hkeys. split; [done|]. split; [done|]. split.
  - intros k Hk. destruct (Hsub k Hk) as [Hk' Hv].
    split; [done|]. split; [|done].
    apply Hclean. rewrite Hkeys. apply elem_of_app. by right.
  - unfold has_data in Hdata. apply existsb_exists in Hdata as (f & Hf & Hd).
    exists f. split; [by apply list_elem_of_In|done].
Qed.

Lemma extracted_record_shape_witness :
  regular [ev_room_contexts; ev_room_extra] ["roomId"] = true /\
  [("event_id", JStr "e2"); ("timestamp", JUndefined); ("roomId", JStr "42")]
    ∈ extracted_data (extract [ev_room_contexts; ev_room_extra] ["roomId"]) /\
  exists requested,
    keys [("event_id", JStr "e2"); ("timestamp", JUndefined);
          ("roomId", JStr "42")]
      ≡ₚ ["event_id"; "timestamp"] ++ requested.
Proof.
  assert (Hin : [("event_id", JStr "e2"); ("timestamp", JUndefined);
                 ("roomId", JStr "42")]
                  ∈ extracted_data
                      (extract [ev_room_contexts; ev_room_extra] ["roomId"])).
  { apply list_elem_of_further, list_elem_of_here. }
  split; [reflexivity|]. split; [exact Hin|].
  destruct (extracted_record_shape [ev_room_contexts; ev_room_extra]
              ["roomId"] _ eq_refl Hin)
    as (requested & Hkeys & _).
  by exists requested.
Defined.

(** A regular run ends without a [TypeError]. *)
Lemma regular_completes events fields :
  regular events fields = true -> failure events fields = None.
Proof.
  unfold regular, failure. intros [Hinit Hall]%andb_true_iff.
  apply negb_true_iff in Hinit. rewrite Hinit.
  assert (conversion_throws events fields = false) as ->; [|done].
  unfold conversion_throws. apply not_true_iff_false. intros Hex.
  apply existsb_exists in Hex as (e & He & Hex).
  apply existsb_exists in Hex as (f & Hf & Hthrows).
  rewrite forallb_forall in Hall. specialize (Hall e He).
  apply andb_true_iff in Hall as [_ Hall]. rewrite forallb_forall in Hall.
  specialize (Hall f Hf). unfold stringifies in Hall.
  apply andb_true_iff in Hall as [Hn _]. apply negb_true_iff in Hn.
  congruence.
Qed.

(** X2.  A regular run ends without a [TypeError], and [unique_values]
    has an entry for exactly the requested names other than [__proto__],
    whether or not any event resolved them. *)
Theorem unique_values_domain events fields :
  regular events fields = true ->
  failure events fields = None /\
  dom (unique_values (extract events fields))
    = list_to_set fields ∖ {["__proto__"]}.
Proof.
  intros Hregular. split; [by apply regular_completes|].
  apply set_eq. intros f.
  rewrite elem_of_dom, unique_values_lookup.
  rewrite elem_of_difference, elem_of_list_to_set, elem_of_singleton.
  case_bool_decide as Hin; cbn [andb].
  - destruct (String.eqb_spec f "__proto__") as [->|Hne]; cbn [negb].
    + split; [by intros [? ?]|]. by intros [_ []].
    + split; [done|]. intros _. by eexists.
  - split; [by intros [? ?]|]. by intros [? _].
Qed.

Lemma unique_values_domain_witness :
  regular [ev_bare] ["roomId"; "__proto__"] = true /\
  dom (unique_values (extract [ev_bare] ["roomId"; "__proto__"]))
    = list_to_set ["roomId"; "__proto__"] ∖ {["__proto__"]}.
Proof.
  split; [reflexivity|].
  destruct (unique_values_domain [ev_bare] ["roomId"; "__proto__"] eq_refl)
    as [_ Hdom].
  exact Hdom.
Defined.

Lemma assigned_strings_app es1 es2 f :
  assigned_strings (es1 ++ es2) f
    = assigned_strings es1 f ++ assigned_strings es2 f.
Proof.
  unfold assigned_strings. by rewrite fmap_app, List.filter_app, fmap_app.
Qed.

(** X3.  Extracting from two batches of events one after the other: the
    records are those of the first batch followed by those of the second,
    the counts add up, and each field's unique values are the sorted,
    duplicate-free merge of the two batches' values. *)
Theorem extract_app es1 es2 fields :
  extracted_data (extract (es1 ++ es2) fields)
    = extracted_data (extract es1 fields)
      ++ extracted_data (extract es2 fields) /\
  events_with_data (extract (es1 ++ es2) fields)
    = events_with_data (extract es1 fields)
      + events_with_data (extract es2 fields) /\
  total_events (extract (es1 ++ es2) fields)
    = total_events (extract es1 fields) + total_events (extract es2 fields) /\
  forall f,
    unique_values (extract (es1 ++ es2) fields) !! f =
    match unique_values (extract es1 fields) !! f,
          unique_values (extract es2 fields) !! f with
    | Some l1, Some l2 => Some (Array_sort (remove_dups (l1 ++ l2)))
    | _, _ => None
    end.
Proof.
  split; [|split; [|split]].
  - by rewrite !extracted_data_records, List.filter_app, fmap_app.
  - by rewrite !events_with_data_count, List.filter_app, length_app.
  - cbn. apply length_app.
  - intros f. rewrite !unique_values_lookup.
    destruct (bool_decide (f ∈ fields) && negb (String.eqb f "__proto__"));
      [|done].
    f_equal. rewrite assigned_strings_app. apply Array_sort_unique.
    + apply NoDup_remove_dups.
    + apply NoDup_remove_dups.
    + intros x. rewrite !elem_of_remove_dups, !elem_of_app.
      by rewrite !Array_sort_perm, !elem_of_remove_dups.
Qed.

(** A name requested a second time finds the record as the first lookup
    left it, and changes nothing. *)
Lemma fields_loop_again srcs fs f (st : obj * gmap string (list string)) :
  (forall k, k ∈ keys st.1 -> inherited k = false) ->
  f ∈ fs ->
  scan_sources srcs f (foldl (fun st f => scan_sources srcs f st) st fs)
    = foldl (fun st f => scan_sources srcs f st) st fs.
Proof.
  intros Hclean Hin.
  rewrite scan_sources_spec by by apply fields_loop_clean.
  rewrite fields_loop_get by done.
  rewrite bool_decide_eq_true_2 by done. cbn [andb].
  destruct (inherited f); [by rewrite !andb_false_r|].
  rewrite !andb_true_r.
  destruct (is_undefined (get st.1 f)) eqn:Hu.
  - unfold defined. by destruct (is_undefined (first_defined_in srcs f)).
  - by rewrite Hu.
Qed.

(** X4.  Requesting again a name that is already requested changes nothing
    in the result. *)
Theorem extract_duplicate_field events fields f :
  f ∈ fields ->
  extract events (fields ++ [f]) = extract events fields.
Proof.
  intros Hin.
  assert (Hinit : init_unique (fields ++ [f]) = init_unique fields).
  { unfold init_unique. rewrite foldl_app. cbn [foldl].
    destruct (decide (f = "__proto__")) as [->|Hne]; [done|].
    apply insert_id. fold (init_unique fields).
    rewrite init_unique_lookup, bool_decide_eq_true_2 by done.
    by rewrite (proj2 (String.eqb_neq f "__proto__")). }
  assert (Hproc : forall e uv,
             process_event (fields ++ [f]) e uv = process_event fields e uv).
  { intros e uv. unfold process_event. rewrite foldl_app. cbn [foldl].
    rewrite fields_loop_again by (done || apply new_eventData_clean).
    f_equal. f_equal. rewrite existsb_app. cbn [existsb].
    rewrite orb_false_r.
    destruct (existsb _ fields) eqn:Hex; [done|]. cbn [orb].
    destruct (has _ f) eqn:Hd; [|done].
    rewrite <- Hex. symmetry. apply existsb_exists. exists f.
    split; [by apply list_elem_of_In|done]. }
  assert (Hstep : forall acc e, step (fields ++ [f]) acc e = step fields acc e).
  { intros acc e. unfold step. by rewrite Hproc. }
  unfold extract. rewrite Hinit.
  assert (foldl (step (fields ++ [f])) ([], init_unique fields) events
          = foldl (step fields) ([], init_unique fields) events) as ->; [|done].
  generalize (([], init_unique fields) : list obj * gmap string (list string)).
  induction events as [|e es IH]; intros acc; cbn [foldl]; [done|].
  by rewrite Hstep, IH.
Qed.

Lemma extract_duplicate_field_witness :
  "roomId" ∈ ["roomId"] /\
  extract [ev_room_contexts; ev_room_extra] ["roomId"; "roomId"]
    = extract [ev_room_contexts; ev_room_extra] ["roomId"].
Proof.
  split; [apply list_elem_of_here|].
  apply (extract_duplicate_field [ev_room_contexts; ev_room_extra] ["roomId"]),
    list_elem_of_here.
Defined.

(** X5.  With no field requested nothing is extracted, whatever the events
    hold: no record, no unique values, zero events with data.  With no
    event, and a field list the handler can initialise, there is no
    record either, and every requested field but [__proto__] gets its
    (empty) list. *)
Theorem extract_nothing events fields :
  init_throws false fields = false ->
  extract events [] =
    {| extracted_data := []; unique_values := ∅;
       total_events := length events; events_with_data := 0 |} /\
  failure events [] = None /\
  failure [] fields = None /\
  extracted_data (extract [] fields) = [] /\
  events_with_data (extract [] fields) = 0 /\
  total_events (extract [] fields) = 0 /\
  (forall f, f ∈ fields -> f <> "__proto__" ->
             unique_values (extract [] fields) !! f = Some []).
Proof.
  intros Hinit.
  split; [|split; [|split; [|split; [done|split; [done|split; [done|]]]]]].
  - unfold extract.
    assert (foldl (step []) ([], init_unique []) events
            = (([], ∅) : list obj * gmap string (list string))) as ->.
    { cbn [init_unique foldl].
      induction events as [|e es IH]; [done|]. cbn [foldl]. exact IH. }
    cbn [fst snd]. by rewrite fmap_empty.
  - unfold failure, conversion_throws. cbn [init_throws].
    assert (existsb (fun event : obj =>
                       existsb (fun field =>
                                  String_throws (assigned event field)) [])
                    events = false) as ->; [|done].
    by induction events.
  - unfold failure. by rewrite Hinit.
  - intros f Hin Hne.
    rewrite unique_values_lookup, bool_decide_eq_true_2 by done.
    by rewrite (proj2 (String.eqb_neq f "__proto__")).
Qed.

Lemma extract_nothing_witness :
  init_throws false ["roomId"; "__proto__"] = false /\
  unique_values (extract [] ["roomId"; "__proto__"]) !! "roomId" = Some [].
Proof.
  split; [reflexivity|].
  destruct (extract_nothing [] ["roomId"; "__proto__"] eq_refl)
    as (_ & _ & _ & _ & _ & _ & Huv).
  apply Huv; [apply list_elem_of_here|discriminate].
Defined.

End ExtractMore.

(** ** Rendering primitives and renderers *)

Lemma join_lines (x : string) (xs : list string) :
  join nl (x :: xs) +:+ nl = concat_all (map (fun y => y +:+ nl) (x :: xs)).
Proof.
  revert x. induction xs as [|y ys IH]; intros x.
  - cbn. by rewrite string_app_nil_r.
  - change (join nl (x :: y :: ys)) with (x +:+ nl +:+ join nl (y :: ys)).
    rewrite !string_app_assoc, IH. cbn [map concat_all foldr].
    by rewrite !string_app_assoc.
Qed.

(** X6.  A list renders the same in both modes: one line per item, "- "
    before an item of a plain list and its 1-based number before an item
    of an ordered one, then an empty line; an empty list renders as two
    line feeds. *)
Theorem createList_shape (o o' : FormatOptions) (items : list string)
    (ordered : bool) :
  createList o items ordered = createList o' items ordered /\
  createList o items false =
    match items with
    | [] => nl +:+ nl
    | _ => concat_all (map (fun item => "- " +:+ item +:+ nl) items) +:+ nl
    end /\
  createList o items true =
    match items with
    | [] => nl +:+ nl
    | _ =>
        concat_all (imap (fun i item =>
                            pretty (i + 1)%nat +:+ ". " +:+ item +:+ nl)
                         items) +:+ nl
    end.
Proof.
  assert (Hmode : forall p b, createList p items b =
            join nl (imap (fun index item =>
                             if b then pretty (index + 1)%nat +:+ ". " +:+ item
                             else "- " +:+ item) items) +:+ nl +:+ nl).
  { intros p b. unfold createList. by destruct (isMarkdown p). }
  split; [by rewrite !Hmode|]. rewrite !Hmode. split.
  - destruct items as [|x xs]; [done|].
    rewrite <- string_app_assoc.
    rewrite (imap_const (fun item => "- " +:+ item)).
    change ((fun item => "- " +:+ item) <$> x :: xs)
      with (("- " +:+ x) :: map (fun item => "- " +:+ item) xs).
    rewrite join_lines. cbn [map]. by rewrite map_map.
  - destruct items as [|x xs]; [done|].
    rewrite <- string_app_assoc. rewrite !imap_cons, join_lines.
    cbn [map concat_all foldr]. rewrite !string_app_assoc.
    do 5 f_equal.
    change (map ?f ?l) with (f <$> l). rewrite fmap_imap.
    f_equal. apply imap_ext. intros i y _. cbn.
    by rewrite !string_app_assoc.
Qed.

(** *** Tables are a markdown-only device *)

Lemma no_table_ret {A} (a : A) : PTable ∉ calls (ret a).
Proof. cbn. apply not_elem_of_nil. Qed.

Lemma no_table_bind {A B} (m : Render A) (k : A -> Render B) :
  PTable ∉ calls m -> (forall a, PTable ∉ calls (k a)) ->
  PTable ∉ calls (bind m k).
Proof.
  intros Hm Hk. unfold bind, calls. cbn [snd].
  rewrite elem_of_app. intros [H|H]; [by apply Hm|by apply (Hk m.1)].
Qed.

Lemma no_table_mapM {A B} (f : A -> Render B) (xs : list A) :
  (forall x, PTable ∉ calls (f x)) -> PTable ∉ calls (mapM f xs).
Proof.
  intros Hf. induction xs as [|x xs IH]; cbn [mapM].
  - apply no_table_ret.
  - apply no_table_bind; [apply Hf|intros y].
    apply no_table_bind; [apply IH|intros ys]. apply no_table_ret.
Qed.

Lemma no_table_forM {A} (f : nat -> A -> Render string) i (xs : list A) out :
  (forall i x, PTable ∉ calls (f i x)) -> PTable ∉ calls (forM f i xs out).
Proof.
  intros Hf. revert i out. induction xs as [|x xs IH]; intros i out; cbn [forM].
  - apply no_table_ret.
  - apply no_table_bind; [apply Hf|intros s]. apply IH.
Qed.

Lemma no_table_prim (s : string) (p : Prim) :
  p <> PTable -> PTable ∉ calls ((s, [p]) : Render string).
Proof. intros Hp. cbn. rewrite list_elem_of_singleton. congruence. Qed.

Ltac no_table :=
  repeat first
    [ apply no_table_ret
    | apply no_table_prim; discriminate
    | apply no_table_mapM; intros ?
    | apply no_table_forM; intros ? ?
    | apply no_table_bind; [|intros ?]
    | match goal with
      | |- _ ∉ calls (match ?x with _ => _ end) => destruct x
      end ].

(** X7.  In plain mode no renderer builds a table, whatever it is given:
    the plain branch of [createTable] is never reached from them. *)
Theorem plain_mode_builds_no_table (toISOString : Z -> string)
    (JSON_stringify : obj -> string) (trim : string -> string)
    (v : ViewType) :
  let o := {| format := plain; view := v |} in
  (forall projects, PTable ∉ calls (ProjectFormatter.formatData o projects)) /\
  (forall issues projectSlug,
     PTable ∉ calls (IssueFormatter.formatIssueList
                       toISOString o issues projectSlug)) /\
  (forall events issueTitle,
     PTable ∉ calls (IssueFormatter.formatEventList o events issueTitle)) /\
  (forall event eventId,
     PTable ∉ calls (IssueFormatter.formatSingleEvent
                       JSON_stringify trim o event eventId)) /\
  (forall issue,
     PTable ∉ calls (IssueDetails.formatIssueDetails toISOString o issue)).
Proof.
  intros o. repeat split.
  - intros projects.
    unfold ProjectFormatter.formatData, ProjectFormatter.formatDetailed,
      ProjectFormatter.formatSummary, this.createHeader, this.createList,
      this.createBold.
    cbn [isMarkdown isDetailed format view o]. no_table.
  - intros issues projectSlug.
    unfold IssueFormatter.formatIssueList,
      IssueFormatter.formatDetailedIssueList,
      IssueFormatter.formatSummaryIssueList, IssueFormatter.formatStats24h,
      IssueFormatter.labelled, this.createHeader, this.createList,
      this.createBold, this.createLink, this.createSeparator.
    cbn [isMarkdown isDetailed format view o]. no_table.
  - intros events issueTitle.
    unfold IssueFormatter.formatEventList,
      IssueFormatter.formatDetailedEventList,
      IssueFormatter.formatSummaryEventList, IssueFormatter.userDetails,
      IssueFormatter.pushUserDetail, IssueFormatter.labelled,
      this.createHeader, this.createList, this.createBold,
      this.createSeparator.
    cbn [isMarkdown isDetailed format view o]. no_table.
  - intros event eventId.
    unfold IssueFormatter.formatSingleEvent, IssueFormatter.environmentSection,
      IssueFormatter.additionalDataSection, IssueFormatter.stackTraceSection,
      IssueFormatter.userSection, IssueFormatter.userDetails,
      IssueFormatter.pushUserDetail, IssueFormatter.labelled,
      this.createHeader, this.createList, this.createBold.
    cbn [isMarkdown isDetailed format view o]. no_table.
  - intros issue.
    unfold IssueDetails.formatIssueDetails, IssueDetails.formatDetailedIssue,
      IssueDetails.formatSummaryIssue, IssueDetails.formatFirstRelease,
      IssueDetails.formatTags, IssueFormatter.formatStats24h,
      IssueFormatter.labelled, this.createHeader, this.createList,
      this.createBold, this.createLink.
    cbn [isMarkdown isDetailed format view o]. no_table.
Qed.

(** *** Single event: stack trace note, user block, merged data *)

Section SingleEventMore.
Import IssueFormatter.

Variable trim : string -> string.

Lemma some_frame_outside_app frames :
  (length (appFrames frames) <? length frames)%nat = true <->
  exists f, f ∈ frames /\ Frame.inApp f = false.
Proof.
  unfold appFrames. rewrite Nat.ltb_lt.
  pose proof (filter_length Frame.inApp frames) as Hlen.
  split.
  - intros Hlt.
    destruct (List.filter (fun f => negb (Frame.inApp f)) frames)
      as [|f fs] eqn:Hrest; [cbn in Hlen; lia|].
    assert (Hf : f ∈ List.filter (fun f => negb (Frame.inApp f)) frames).
    { rewrite Hrest. apply list_elem_of_here. }
    apply list_elem_of_In, filter_In in Hf as [Hf Hout].
    exists f. split; [by apply list_elem_of_In|by apply negb_true_iff].
  - intros (f & Hf & Hout).
    assert (Hin : In f (List.filter (fun f => negb (Frame.inApp f)) frames)).
    { apply filter_In. split; [by apply list_elem_of_In|by rewrite Hout]. }
    destruct (List.filter (fun f => negb (Frame.inApp f)) frames); [done|].
    cbn in Hlen. lia.
Qed.

(** X8.  The closing note of the stack trace depends on whether some frame
    lies outside the application, not on whether frames were left out:
    with such a frame the note is printed (even when every frame is
    shown); with in-app frames only, the last 5 are shown and no note says
    that the others were dropped. *)
Theorem stack_trace_note o event frames :
  stacktraceFrames event = Some frames ->
  ((exists f, f ∈ frames /\ Frame.inApp f = false) ->
     output (stackTraceSection trim o event) =
       createHeader o "Stack Trace" 2
       +:+ concat_all (map (formatFrame trim frames) (framesToShow frames))
       +:+ "*Showing " +:+ pretty (length (framesToShow frames))
       +:+ " most relevant frames (" +:+ pretty (length frames)
       +:+ " total)*" +:+ nl +:+ nl) /\
  ((forall f, f ∈ frames -> Frame.inApp f = true) ->
     output (stackTraceSection trim o event) =
       createHeader o "Stack Trace" 2
       +:+ concat_all (map (formatFrame trim frames) (slice_last 5 frames))).
Proof.
  intros Hf. rewrite (stackTraceSection_shows trim o event frames Hf). split.
  - intros Hout. apply some_frame_outside_app in Hout. by rewrite Hout.
  - intros Hall.
    assert (Hno : (length (appFrames frames) <? length frames)%nat = false).
    { apply not_true_iff_false. intros (f & Hin & Hout)%some_frame_outside_app.
      rewrite (Hall f Hin) in Hout. discriminate. }
    rewrite Hno, string_app_nil_r. do 3 f_equal.
    unfold framesToShow, appFrames.
    rewrite forallb_filter_id.
    + by destruct frames.
    + apply forallb_forall. intros f Hin. by apply Hall, list_elem_of_In.
Qed.

Lemma some_truthy_key (u : obj) :
  (0 <? length (List.filter (fun key => truthy (get u key)) (keys u)))%nat
  = existsb (fun key => truthy (get u key)) (keys u).
Proof.
  induction (keys u) as [|k ks IH]; [done|]. cbn [List.filter existsb].
  by destruct (truthy (get u k)).
Qed.

(** X9.  The user block of a single event: it is printed when some
    property of [user] is truthy, and lists, in this order, those of [id],
    [email], [username] and [ip_address] that are truthy; a user whose
    truthy properties are all other ones gets the bare header. *)
Theorem user_section_contents o event u :
  Event.user event = Some u ->
  output (userSection o event) =
    if existsb (fun key => truthy (get u key)) (keys u)
    then
      createHeader o "User Information" 2
      +:+ match
            omap (fun lk : string * string =>
                    if truthy (get u lk.2)
                    then Some (createBold o lk.1 +:+ ": " +:+ toStr (get u lk.2))
                    else None)
                 [("ID", "id"); ("Email", "email"); ("Username", "username");
                  ("IP Address", "ip_address")]
          with
          | [] => ""
          | details => createList o details false
          end
    else "".
Proof.
  intros Hu. unfold userSection. rewrite Hu, some_truthy_key.
  destruct (existsb _ (keys u)); [|done].
  unfold userDetails, pushUserDetail, labelled. cbn [omap list_omap snd fst].
  destruct (truthy (get u "id")), (truthy (get u "email")),
    (truthy (get u "username")), (truthy (get u "ip_address"));
    cbn; by rewrite ?string_app_nil_r.
Qed.

Lemma user_section_contents_witness :
  output (userSection {| format := markdown; view := detailed |}
            Samples.ev_named_user)
  = "## User Information" +:+ nl +:+ nl.
Proof.
  rewrite (user_section_contents {| format := markdown; view := detailed |}
             Samples.ev_named_user [("name", JStr "ann")] eq_refl).
  reflexivity.
Defined.




End SingleEventMore.


Lemma stack_trace_note_witness :
  IssueFormatter.stacktraceFrames IssueFormatter.ev_context_and_vars
    = Some [IssueFormatter.frame_at 0 true
              (Some [("context",
                      JObj [("roomId", JStr "7"); ("local", JBool true)])])] /\
  output (IssueFormatter.stackTraceSection (fun s => s)
            {| format := plain; view := summary |} IssueFormatter.ev_context_and_vars) =
  "Stack Trace" +:+ nl +:+ nl
  +:+ "**Frame 1**: `app.py:10`" +:+ nl
  +:+ "- Function: `handler`" +:+ nl +:+ nl.
Proof.
  split; [reflexivity|].
  destruct (stack_trace_note (fun s => s)
              {| format := plain; view := summary |} IssueFormatter.ev_context_and_vars _
              eq_refl) as [_ Hall].
  rewrite Hall; [reflexivity|].
  intros f Hf. apply list_elem_of_singleton in Hf. by subst.
Defined.

(** *** Single issue, summary view *)

Lemma total24h_from (stats : list (Z * Z)) (start : Z) :
  foldl (fun total b => (total + b.2)%Z) start stats
  = (start + foldr (fun b t => (b.2 + t)%Z) 0%Z stats)%Z.
Proof.
  revert start. induction stats as [|b bs IH]; intros start; cbn [foldl foldr].
  - lia.
  - rewrite IH. lia.
Qed.

(** X12.  The summary of an issue ends with the 24-hour event count when
    there is at least one bucket, and with nothing more otherwise; the
    count is the sum of the buckets' counts, in whatever order they come. *)
Theorem summary_issue_total o issue :
  output (IssueDetails.formatSummaryIssue o issue) =
    output (IssueDetails.formatSummaryIssue o
              (IssueDetails.with_stats issue None))
    +:+ match IssueDetails.stats24h issue with
        | Some ((_ :: _) as stats) =>
            nl +:+ createBold o "24-Hour Event Count" +:+ ": "
            +:+ pretty (foldr (fun b t => (b.2 + t)%Z) 0%Z stats) +:+ nl
        | _ => ""
        end /\
  (forall stats stats',
     stats ≡ₚ stats' ->
     IssueDetails.total24h stats = IssueDetails.total24h stats').
Proof.
  split.
  - unfold IssueDetails.formatSummaryIssue, IssueFormatter.labelled,
      bind, ret, output.
    cbn [fst snd IssueDetails.with_stats IssueDetails.stats24h
         IssueDetails.title IssueDetails.shortId IssueDetails.status
         IssueDetails.level IssueDetails.firstSeen IssueDetails.lastSeen
         IssueDetails.count IssueDetails.userCount IssueDetails.permalink
         IssueDetails.project].
    destruct (IssueDetails.stats24h issue) as [[|b bs]|]; cbn [fst snd].
    + by rewrite string_app_nil_r.
    + unfold IssueDetails.total24h. rewrite total24h_from, Z.add_0_l.
      by rewrite !string_app_assoc.
    + by rewrite string_app_nil_r.
  - intros stats stats' Hperm. unfold IssueDetails.total24h.
    rewrite !total24h_from.
    induction Hperm; cbn [foldr]; lia.
Qed.

(** ** Start-up configuration *)

Lemma prefix_app (p s : string) : String.prefix p (p +:+ s) = true.
Proof.
  induction p as [|c p IH]; [by destruct s|].
  change (String.prefix (String c p) (String c (p +:+ s)) = true).
  cbn [String.prefix]. destruct (ascii_dec c c) as [_|Hne]; [exact IH|done].
Qed.

Lemma or_str_nonempty (x : option string) (d : string) :
  d <> "" -> or_str x d <> "".
Proof.
  intros Hd. unfold or_str. destruct x as [s|]; [|done].
  by destruct (String.eqb_spec s "").
Qed.

(** X13.  With [PROTOCOL] unset, empty, "http" or "https", the base URL of
    the client always starts with "http://" or "https://" and ends with
    the configured host ("sentry.io" when unset); a host that already
    carries one of the two schemes is taken as it is, so that configuring
    the resulting URL as the host gives it back. *)
Theorem sentryHost_scheme (PROTOCOL SENTRY_HOST : option string) :
  PROTOCOL ∈ [None; Some ""; Some "http"; Some "https"] ->
  (String.prefix "http://" (Config.sentryHost PROTOCOL SENTRY_HOST) = true \/
   String.prefix "https://" (Config.sentryHost PROTOCOL SENTRY_HOST) = true) /\
  (exists scheme,
     Config.sentryHost PROTOCOL SENTRY_HOST
       = scheme +:+ or_str SENTRY_HOST "sentry.io") /\
  Config.sentryHost PROTOCOL
    (Some (Config.sentryHost PROTOCOL SENTRY_HOST))
    = Config.sentryHost PROTOCOL SENTRY_HOST.
Proof.
  intros Hp.
  assert (Hhost : or_str SENTRY_HOST "sentry.io" <> "")
    by (by apply or_str_nonempty).
  assert (Hscheme :
    String.prefix "http://" (Config.sentryHost PROTOCOL SENTRY_HOST) = true \/
    String.prefix "https://" (Config.sentryHost PROTOCOL SENTRY_HOST) = true).
  { unfold Config.sentryHost.
    destruct (String.eqb_spec (or_str SENTRY_HOST "sentry.io") "");
      [done|]. cbn [negb andb].
    set (host := or_str SENTRY_HOST "sentry.io") in *.
    destruct (String.prefix "http://" host) eqn:H1; cbn [negb andb];
      [by left|].
    destruct (String.prefix "https://" host) eqn:H2; cbn [negb andb];
      [by right|].
    repeat (apply elem_of_cons in Hp as [->|Hp]);
      [right|right|left|right|by apply elem_of_nil in Hp];
      cbn [or_str String.eqb Ascii.eqb Bool.eqb];
      first [ apply (prefix_app "https://") | apply (prefix_app "http://") ]. }
  split; [exact Hscheme|]. split.
  - unfold Config.sentryHost.
    destruct (negb _ && negb _ && negb _).
    + exists (or_str PROTOCOL "https" +:+ "://").
      by rewrite string_app_assoc.
    + by exists "".
  - unfold Config.sentryHost at 1. cbn [or_str].
    assert (Hne : Config.sentryHost PROTOCOL SENTRY_HOST <> "").
    { intros Heq. rewrite Heq in Hscheme. by destruct Hscheme. }
    destruct (String.eqb_spec (Config.sentryHost PROTOCOL SENTRY_HOST) "");
      [done|].
    destruct Hscheme as [->| ->]; cbn [negb andb];
      by rewrite ?andb_false_r.
Qed.

Lemma sentryHost_scheme_witness :
  None ∈ [None; Some ""; Some "http"; Some "https"] /\
  Config.sentryHost None (Some "sentry.example.org")
    = "https://sentry.example.org" /\
  Config.sentryHost None (Some "https://sentry.example.org")
    = "https://sentry.example.org".
Proof.
  split; [apply list_elem_of_here|].
  destruct (sentryHost_scheme None (Some "sentry.example.org")
              (list_elem_of_here _ _)) as (_ & _ & Hidem).
  split; [reflexivity|exact Hidem].
Defined.

(** ** URLs given in place of identifiers *)

Lemma split_nonempty (sep : ascii) (s : string) : Server.split sep s <> [].
Proof.
  destruct s as [|c s]; [done|]. cbn [Server.split].
  destruct (Ascii.eqb c sep); [done|]. by destruct (Server.split sep s).
Qed.

(** X14.  Splitting a string at a separator and joining the pieces with
    it gives the string back, and no piece contains the separator; the
    parts of a path are therefore non-empty and free of slashes. *)
Theorem split_join (sep : ascii) (s : string) :
  String.concat (String sep "") (Server.split sep s) = s /\
  Forall (fun piece => Traffic.occurs sep piece = false) (Server.split sep s) /\
  Forall Traffic.segment (Server.pathParts s).
Proof.
  assert (Hpieces : forall sep s,
            Forall (fun piece => Traffic.occurs sep piece = false)
                   (Server.split sep s)).
  { clear. intros sep s. induction s as [|c s IH]; cbn [Server.split].
    - by repeat constructor.
    - destruct (Ascii.eqb c sep) eqn:Hc.
      + by constructor.
      + destruct (Server.split sep s) as [|w ws].
        * constructor; [|done]. cbn [Traffic.occurs]. by rewrite Hc.
        * apply Forall_cons in IH as [Hw Hws]. constructor; [|done].
          cbn [Traffic.occurs]. by rewrite Hc, Hw. }
  split; [|split; [apply Hpieces|]].
  - induction s as [|c s IH]; [done|]. cbn [Server.split].
    pose proof (split_nonempty sep s) as Hne.
    destruct (Ascii.eqb_spec c sep) as [->|_].
    + destruct (Server.split sep s) as [|w ws]; [done|].
      change (String.concat (String sep "") ("" :: w :: ws))
        with (String sep (String.concat (String sep "") (w :: ws))).
      by rewrite IH.
    + destruct (Server.split sep s) as [|w ws]; [done|].
      destruct ws as [|w' ws].
      * cbn in IH. cbn. by rewrite IH.
      * change (String.concat (String sep "") (String c w :: w' :: ws))
          with (String c (String.concat (String sep "") (w :: w' :: ws))).
        by rewrite IH.
  - unfold Server.pathParts. apply Forall_forall. intros part Hin.
    apply list_elem_of_In, filter_In in Hin as [Hin Hne].
    split.
    + intros ->. discriminate.
    + specialize (Hpieces "/"%char s). rewrite Forall_forall in Hpieces.
      by apply Hpieces, list_elem_of_In.
Qed.





Section ServerMore.
Import Server.

Variable network : list Request -> Request -> FetchOutcome.
Variable URL_pathname : string -> Outcome string.
Variable asProjects : value -> Outcome (list ProjectFormatter.SentryProject).
Variable asIssues : value -> Outcome (list IssueFormatter.Issue.t).
Variable asEvents : value -> Outcome (list IssueFormatter.Event.t).
Variable asEvent : value -> Outcome IssueFormatter.Event.t.
Variable asObjects : value -> Outcome (list obj).
Variable formatIssueDetails : FormatOptions -> value -> Outcome string.
Variable toISOString : Z -> string.
Variable JSON_stringify : obj -> string.
Variable JSON_stringify_result : Extract.ExtractionResult -> string.
Variable trim : string -> string.
Variable baseUrl : string.

Local Abbreviation the_body :=
  (tool_body network URL_pathname asProjects asIssues asEvents asEvent
     asObjects formatIssueDetails toISOString JSON_stringify
     JSON_stringify_result trim baseUrl).
Local Abbreviation the_handler :=
  (handler network URL_pathname asProjects asIssues asEvents asEvent
     asObjects formatIssueDetails toISOString JSON_stringify
     JSON_stringify_result trim baseUrl).
Local Abbreviation sends := (Traffic.sends_at_most baseUrl).

Lemma get_log endpoint log :
  (get network baseUrl endpoint log).2
  = log ++ [{| method := "GET"; url := baseUrl +:+ "/api/0" +:+ endpoint |}].
Proof.
  unfold get, abind, makeRequest, athrow, lift.
  destruct (network log _) as [e|r]; [done|].
  destruct (ok r); [done|]. by destruct (body_text r).
Qed.

Lemma get_ok endpoint log r :
  network log {| method := "GET"; url := baseUrl +:+ "/api/0" +:+ endpoint |}
    = Resolved r ->
  ok r = true ->
  get network baseUrl endpoint log
  = (json r,
     log ++ [{| method := "GET";
                url := baseUrl +:+ "/api/0" +:+ endpoint |}]).
Proof.
  intros Hnet Hok. unfold get, abind, makeRequest, athrow, lift.
  by rewrite Hnet, Hok.
Qed.

Lemma abind_log_silent {A B} (m : Async A) (k : A -> Async B) log :
  (forall a l, (k a l).2 = l) -> (abind m k log).2 = (m log).2.
Proof.
  intros Hk. unfold abind. destruct (m log) as [[a|e] l]; [apply Hk|done].
Qed.

Lemma sends_silent {A} (m : Async A) :
  (forall log, (m log).2 = log) -> sends 0 m.
Proof.
  intros Hm log. exists []. rewrite Hm, app_nil_r. by repeat split.
Qed.

Lemma sends_get endpoint : sends 1 (get network baseUrl endpoint).
Proof.
  intros log.
  exists [{| method := "GET"; url := baseUrl +:+ "/api/0" +:+ endpoint |}].
  split; [apply get_log|]. split; [done|].
  constructor; [|done]. split; [done|]. by exists endpoint.
Qed.

Lemma sends_abind {A B} n1 n2 n (m : Async A) (k : A -> Async B) :
  sends n1 m -> (forall a, sends n2 (k a)) -> n1 + n2 <= n ->
  sends n (abind m k).
Proof.
  intros Hm Hk Hn log. destruct (Hm log) as (s1 & Hlog1 & Hlen1 & Hall1).
  unfold abind. destruct (m log) as [[a|e] log1]; cbn [snd] in *.
  - destruct (Hk a log1) as (s2 & Hlog2 & Hlen2 & Hall2).
    exists (s1 ++ s2). rewrite Hlog2, Hlog1, app_assoc.
    split; [done|]. rewrite length_app. split; [lia|].
    by apply Forall_app.
  - exists s1. split; [done|]. split; [lia|done].
Qed.

Ltac sends_step :=
  first [ apply sends_get
        | apply sends_silent; reflexivity
        | eapply sends_abind;
            [sends_step|intros ?; sends_step
            |first [apply Nat.le_refl|cbn; lia]] ].

Lemma abind_log_first {A B} n (m : Async A) (k : A -> Async B) log first :
  (m log).2 = log ++ first -> (forall a, sends n (k a)) ->
  exists more, (abind m k log).2 = log ++ first ++ more.
Proof.
  intros Hm Hk. unfold abind.
  destruct (m log) as [[a|e] l]; cbn [snd] in *; subst l.
  - destruct (Hk a (log ++ first)) as (more & -> & _).
    exists more. by rewrite app_assoc.
  - exists []. by rewrite app_nil_r.
Qed.

Lemma render_event_silent (k : IssueFormatter.Event.t -> ToolResponse)
    (event : value) l :
  (abind (lift (asEvent event)) (fun event => aret (k event)) l).2 = l.
Proof. unfold abind, lift, aret. by destruct (asEvent event). Qed.


(** X16.  A URL that does not parse: [get_sentry_issue] answers with the
    error response at once, without sending anything, whereas
    [get_sentry_event] swallows the failure and goes on with the
    arguments as given, the URL standing in for the issue id. *)
Theorem unparsable_url url e organization_slug event_id v f log :
  String.prefix "http" url = true ->
  URL_pathname url = Throw e ->
  the_handler (get_sentry_issue url organization_slug v f) log
    = (Return (handleApiError e "get_sentry_issue"), log) /\
  eventTargetOf URL_pathname url event_id organization_slug
    = (organization_slug, url, event_id) /\
  exists more,
    (the_handler (get_sentry_event url event_id organization_slug v f) log).2
    = log ++ {| method := "GET";
                url := baseUrl +:+ "/api/0" +:+ "/organizations/"
                       +:+ organization_slug +:+ "/issues/" +:+ url
                       +:+ "/" |} :: more.
Proof.
  intros Hhttp Hthrow.
  assert (Htarget : eventTargetOf URL_pathname url event_id organization_slug
                    = (organization_slug, url, event_id)).
  { unfold eventTargetOf. by rewrite Hhttp, Hthrow. }
  split; [|split; [exact Htarget|]].
  - unfold handler, try_catch, tool_body, abind, lift, issueIdOf.
    by rewrite Hhttp, Hthrow.
  - rewrite handler_unfold. cbn [snd]. unfold tool_body. rewrite Htarget.
    rewrite abind_log_silent by (intros; apply render_event_silent).
    unfold getIssueEvent, getIssue.
    apply (abind_log_first 1 _ _ log [_]); [apply get_log|].
    intros issue. sends_step.
Qed.

(** X17.  A call sends at most two requests (one for every tool but
    [get_sentry_event]), each of them a GET under [baseUrl/api/0]: no
    handler writes to the API or reaches another host. *)
Theorem requests_are_api_gets c :
  Traffic.sends_at_most baseUrl
    (match c with get_sentry_event _ _ _ _ _ => 2 | _ => 1 end)
    (the_handler c).
Proof.
  assert (Hbody : sends (match c with
                         | get_sentry_event _ _ _ _ _ => 2
                         | _ => 1
                         end) (the_body c)).
  { destruct c; unfold tool_body, getProjects, getProjectIssues, getIssue,
      getIssueEvents, resolveShortId, getIssueEvent;
      try (destruct (eventTargetOf _ _ _ _) as [[? ?] ?]);
      sends_step. }
  intros log. destruct (Hbody log) as (sent & Hlog & Hlen & Hall).
  exists sent. split; [|done].
  unfold handler, try_catch, aret.
  by destruct (the_body c log) as [[r|e] l].
Qed.

Lemma returns_success_abind {A} (m : Async A) (k : A -> Async ToolResponse) :
  (forall a, Traffic.returns_success (k a)) ->
  Traffic.returns_success (abind m k).
Proof.
  intros Hk log response. unfold abind.
  destruct (m log) as [[a|e] log1]; [apply Hk|done].
Qed.

Lemma returns_success_aret output :
  Traffic.returns_success (aret (success output)).
Proof. intros log response [= <-]. by exists output. Qed.

(** X18.  Whatever happens, a tool answers with exactly one text entry:
    either the rendered output, without the error flag, or the message
    "Error in <tool>: <message>" with the flag set. *)
Theorem response_shape c log :
  exists response,
    (the_handler c log).1 = Return response /\
    ((exists output, response = success output) \/
     (exists e, response = handleApiError e (tool_name c))) /\
    exists item, content response = [item] /\ type item = "text".
Proof.
  assert (Hbody : Traffic.returns_success (the_body c)).
  { destruct c; unfold tool_body;
      try (destruct (eventTargetOf _ _ _ _) as [[? ?] ?]);
      repeat (apply returns_success_abind; intros ?);
      apply returns_success_aret. }
  unfold handler, try_catch, aret. specialize (Hbody log).
  destruct (the_body c log) as [[response|e] l]; cbn [fst] in *.
  - destruct (Hbody response eq_refl) as [output ->].
    eexists. split; [done|]. split; [by left; eexists|]. by eexists.
  - eexists. split; [done|]. split; [by right; eexists|]. by eexists.
Qed.

(** X19.  [get_sentry_event] finds the project through the issue: it
    first asks for the issue, then for the event under the slug of the
    issue's project; when the issue carries no project, nothing more is
    sent and the answer is the error response. *)
Theorem event_through_issue issue_id event_id org v f log r issue :
  String.prefix "http" issue_id = false ->
  network log {| method := "GET";
                 url := baseUrl +:+ "/api/0" +:+ "/organizations/" +:+ org
                        +:+ "/issues/" +:+ issue_id +:+ "/" |}
    = Resolved r ->
  ok r = true -> json r = Return (JObj issue) ->
  (Js.get issue "project" = JUndefined ->
     exists e,
       the_handler (get_sentry_event issue_id event_id org v f) log =
       (Return (handleApiError e "get_sentry_event"),
        log ++ [{| method := "GET";
                   url := baseUrl +:+ "/api/0" +:+ "/organizations/" +:+ org
                          +:+ "/issues/" +:+ issue_id +:+ "/" |}])) /\
  (forall project slug,
     Js.get issue "project" = JObj project ->
     Js.get project "slug" = JStr slug ->
     (the_handler (get_sentry_event issue_id event_id org v f) log).2 =
     log ++ [{| method := "GET";
                url := baseUrl +:+ "/api/0" +:+ "/organizations/" +:+ org
                       +:+ "/issues/" +:+ issue_id +:+ "/" |};
             {| method := "GET";
                url := baseUrl +:+ "/api/0" +:+ "/projects/" +:+ org +:+ "/"
                       +:+ slug +:+ "/events/" +:+ event_id +:+ "/" |}]).
Proof.
  intros Hhttp Hnet Hok Hjson.
  assert (Htarget : eventTargetOf URL_pathname issue_id event_id org
                    = (org, issue_id, event_id)).
  { unfold eventTargetOf. by rewrite Hhttp. }
  split.
  - intros Hproject. eexists.
    unfold handler, try_catch, tool_body. rewrite Htarget.
    unfold getIssueEvent, getIssue, get, makeRequest, abind, athrow, lift,
      aret.
    rewrite Hnet, Hok. cbn [negb]. rewrite Hjson.
    cbn [member prop obind]. rewrite Hproject. cbn [member]. reflexivity.
  - intros project slug Hproject Hslug.
    rewrite handler_unfold. cbn [snd]. unfold tool_body. rewrite Htarget.
    rewrite abind_log_silent by (intros; apply render_event_silent).
    unfold getIssueEvent, getIssue. unfold abind at 1.
    rewrite (get_ok _ _ r) by done. rewrite Hjson.
    unfold abind, lift. cbn [member prop obind]. rewrite Hproject.
    cbn [member prop]. rewrite Hslug. cbn [toStr].
    by rewrite get_log, <- app_assoc.
Qed.

End ServerMore.


Lemma unparsable_url_witness :
  Server.handler Server.network_down Samples.invalid_url Samples.no_cast
    Samples.no_cast Samples.no_cast Samples.no_cast Samples.no_cast
    (fun _ _ => Samples.no_cast JNull) (fun _ => "") (fun _ => "")
    (fun _ => "") (fun s => s) "https://sentry.io"
    (Server.get_sentry_issue "http://[" "acme" summary plain) []
  = (Server.Return
       {| content := [{| type := "text";
                         text := "Error in get_sentry_issue: Invalid URL" |}];
          isError := true |}, []).
Proof.
  apply (unparsable_url Server.network_down Samples.invalid_url
           Samples.no_cast Samples.no_cast Samples.no_cast Samples.no_cast
           Samples.no_cast (fun _ _ => Samples.no_cast JNull)
           (fun _ => "") (fun _ => "") (fun _ => "") (fun s => s)
           "https://sentry.io" "http://["
           {| ErrorHandler.message := "Invalid URL" |} "acme" "e0"
           summary plain []); reflexivity.
Defined.

Lemma event_through_issue_witness :
  exists e,
    Server.handler Samples.network_bare_issue Samples.invalid_url
      Samples.no_cast Samples.no_cast Samples.no_cast Samples.no_cast
      Samples.no_cast (fun _ _ => Samples.no_cast JNull) (fun _ => "")
      (fun _ => "") (fun _ => "") (fun s => s) "https://sentry.io"
      (Server.get_sentry_event "42" "abc" "acme" summary plain) []
    = (Server.Return (handleApiError e "get_sentry_event"),
       [{| Server.method := "GET";
           Server.url :=
             "https://sentry.io/api/0/organizations/acme/issues/42/" |}]).
Proof.
  destruct (event_through_issue Samples.network_bare_issue
              Samples.invalid_url
              Samples.no_cast Samples.no_cast Samples.no_cast Samples.no_cast
              Samples.no_cast (fun _ _ => Samples.no_cast JNull)
              (fun _ => "") (fun _ => "") (fun _ => "") (fun s => s)
              "https://sentry.io" "42" "abc" "acme" summary plain []
              Samples.bare_issue_response Samples.issue_without_project
              eq_refl eq_refl eq_refl eq_refl) as [Hbare _].
  exact (Hbare eq_refl).
Defined.
